(** * Verification of the Slack summarizer bot (src/index.ts)

    The development embeds the command-to-summary pipeline of [index.ts]:
    the two Bolt listeners ([app_mention] and the [!summarize] message
    pattern), [handleSummarizeRequest], [fetchRecentMessages], [getUserMap],
    [summarizeText] and [postMessage].

    Modelling conventions.
    - A JavaScript string is a [string]: a sequence of code units, each below
      256.  White space ([trim], [parseInt], the regular expression class
      [\s]) is the part of ECMAScript's WhiteSpace and LineTerminator in that
      range.
    - A JavaScript number that the program computes with is always the
      result of [parseInt] or the literal 10: [NaN], a double whose value is
      an integer, or an infinity.  [parseInt] rounds the integer it reads to
      the nearest double, ties to even, and gives an infinity beyond the
      range of doubles.  Negative zero is not told apart from zero: the
      program only tests it for truthiness.
    - [undefined] is [None] at an [option] type.
    - The calls to the Slack client, the OpenAI client and the console are
      events of a trace.  What the outside world answers to a call is given by
      an environment that may depend on everything that happened before. *)

From Stdlib Require Import ZArith String Ascii List Bool Lia QArith.
From stdpp Require Import base gmap strings list.
Import ListNotations.

Local Open Scope string_scope.
Local Open Scope Z_scope.

(** ** JavaScript strings *)

Module JS.

(** The double quote character, code unit 34. *)
Definition dquote : ascii := "034"%char.

(** WhiteSpace and LineTerminator code units below 256:
    TAB, LF, VT, FF, CR, SP and NBSP. *)
Definition is_white_space (c : ascii) : bool :=
  match N_of_ascii c with
  | 9%N | 10%N | 11%N | 12%N | 13%N | 32%N | 160%N => true
  | _ => false
  end.

(** LineTerminator code units below 256: LF and CR. *)
Definition is_line_terminator (c : ascii) : bool :=
  match N_of_ascii c with
  | 10%N | 13%N => true
  | _ => false
  end.

Definition is_decimal_digit (c : ascii) : bool :=
  (48 <=? N_of_ascii c)%N && (N_of_ascii c <=? 57)%N.

(** Every code unit of [s] is in the class [p]. *)
Fixpoint every (p : ascii -> bool) (s : string) : bool :=
  match s with
  | EmptyString => true
  | String c s' => p c && every p s'
  end.

(** [s.startsWith(p)] *)
Definition startsWith (s p : string) : bool := String.prefix p s.

(** [s.includes(sub)] *)
Fixpoint includes (s sub : string) : bool :=
  String.prefix sub s ||
  match s with
  | EmptyString => false
  | String _ s' => includes s' sub
  end.

Fixpoint trimStart (s : string) : string :=
  match s with
  | EmptyString => EmptyString
  | String c s' => if is_white_space c then trimStart s' else s
  end.

Fixpoint trimEnd (s : string) : string :=
  match s with
  | EmptyString => EmptyString
  | String c s' =>
      match trimEnd s' with
      | EmptyString => if is_white_space c then EmptyString else String c EmptyString
      | t => String c t
      end
  end.

(** [s.trim()] *)
Definition trim (s : string) : string := trimEnd (trimStart s).

Fixpoint drop (n : nat) (s : string) : string :=
  match n, s with
  | O, _ => s
  | S n', String _ s' => drop n' s'
  | S _, EmptyString => EmptyString
  end.

(** [s.split(sep)] for a non-empty separator [sep].  [skip] counts the code
    units of a separator occurrence still to be passed over, [cur] is the
    piece being collected. *)
Fixpoint split_go (sep : string) (skip : nat) (cur s : string) : list string :=
  match s with
  | EmptyString => [cur]
  | String c s' =>
      match skip with
      | S n => split_go sep n cur s'
      | O =>
          if String.prefix sep s
          then cur :: split_go sep (Nat.pred (String.length sep)) EmptyString s'
          else split_go sep O (cur ++ String c EmptyString) s'
      end
  end.

Definition split (s sep : string) : list string := split_go sep O EmptyString s.

(** [a.join(sep)] *)
Fixpoint join (a : list string) (sep : string) : string :=
  match a with
  | [] => EmptyString
  | [x] => x
  | x :: rest => x ++ sep ++ join rest sep
  end.

(** [a.slice(1)] *)
Definition slice1 {A} (a : list A) : list A := List.tl a.

(** The first occurrence of [pat] in [s]: the text before it and the text
    after it. *)
Fixpoint cut (s pat : string) : option (string * string) :=
  if String.prefix pat s then Some (EmptyString, drop (String.length pat) s)
  else
    match s with
    | EmptyString => None
    | String c s' =>
        match cut s' pat with
        | Some (b, a) => Some (String c b, a)
        | None => None
        end
    end.

(** GetSubstitution for a string pattern (no captures): in the replacement
    text, [$$] stands for a dollar sign, [$&] for the matched text, [$`] for
    the text before the match and [$'] for the text after it; every other
    code unit stands for itself. *)
Fixpoint GetSubstitution (matched before after repl : string) : string :=
  match repl with
  | EmptyString => EmptyString
  | String c r =>
      if Ascii.eqb c "$"%char then
        match r with
        | EmptyString => String c EmptyString
        | String d r' =>
            if Ascii.eqb d "$"%char then String "$"%char (GetSubstitution matched before after r')
            else if Ascii.eqb d "&"%char then matched ++ GetSubstitution matched before after r'
            else if Ascii.eqb d "`"%char then before ++ GetSubstitution matched before after r'
            else if Ascii.eqb d "'"%char then after ++ GetSubstitution matched before after r'
            else String c (GetSubstitution matched before after r)
        end
      else String c (GetSubstitution matched before after r)
  end.

(** [s.replace(pat, repl)] with a string pattern: only the first occurrence
    is replaced. *)
Definition replace (s pat repl : string) : string :=
  match cut s pat with
  | None => s
  | Some (b, a) => b ++ GetSubstitution pat b a repl ++ a
  end.

(** [x || d] on strings: the empty string and [undefined] are falsy. *)
Definition or_string (x : option string) (d : string) : string :=
  match x with
  | Some (String c s) => String c s
  | _ => d
  end.

(** Truthiness of an optional string ([if (question)], [if (thread_ts)]). *)
Definition truthy (x : option string) : bool :=
  match x with
  | Some (String _ _) => true
  | _ => false
  end.

(** *** Numbers and [parseInt] *)

Inductive number : Type :=
| NaN
| Int (z : Z)
| Infinity (negative : bool).

(** The double nearest to the integer [n], ties to even: an integer below
    2^53 in magnitude is a double; a larger one keeps its 53 leading bits,
    rounded; and when the rounded magnitude reaches 2^1024 the result is an
    infinity. *)
Definition to_double (n : Z) : number :=
  let a := Z.abs n in
  if a <? 2 ^ 53 then Int n
  else
    let e := Z.log2 a - 52 in
    let q := Z.shiftr a e in
    let r := Z.land a (Z.ones e) in
    let half := Z.shiftl 1 (e - 1) in
    let q' := if (half <? r) || ((r =? half) && Z.odd q) then q + 1 else q in
    let v := Z.shiftl q' e in
    if 2 ^ 1024 <=? v then Infinity (n <? 0) else Int (Z.sgn n * v).

(** The value of a digit in radices up to 36. *)
Definition digit_value (c : ascii) : option Z :=
  let n := Z.of_N (N_of_ascii c) in
  if (48 <=? n) && (n <=? 57) then Some (n - 48)
  else if (97 <=? n) && (n <=? 122) then Some (n - 87)
  else if (65 <=? n) && (n <=? 90) then Some (n - 55)
  else None.

(** The value of the longest prefix of [s] made of radix-[R] digits; [acc] is
    [None] as long as no digit was read. *)
Fixpoint digits (R : Z) (s : string) (acc : option Z) : option Z :=
  match s with
  | EmptyString => acc
  | String c s' =>
      match digit_value c with
      | Some d =>
          if d <? R
          then digits R s' (Some (match acc with None => d | Some a => a * R + d end))
          else acc
      | None => acc
      end
  end.

(** [parseInt(s)] without a radix argument: leading white space, a sign, the
    prefix [0x] or [0X] for radix 16, then the longest run of digits; the
    integer read is rounded to a double.  (ECMAScript lets an implementation
    approximate a decimal text of more than 20 significant digits; Node
    rounds the exact integer, and so does this definition.) *)
Definition parseInt (s : string) : number :=
  let s1 := trimStart s in
  let '(sign, s2) :=
    match s1 with
    | String c r =>
        if Ascii.eqb c "-"%char then (-1, r)
        else if Ascii.eqb c "+"%char then (1, r)
        else (1, s1)
    | EmptyString => (1, s1)
    end in
  let '(R, s3) :=
    match s2 with
    | String c (String x r) =>
        if Ascii.eqb c "0"%char && (Ascii.eqb x "x"%char || Ascii.eqb x "X"%char)
        then (16, r) else (10, s2)
    | _ => (10, s2)
    end in
  match digits R s3 None with
  | None => NaN
  | Some v => to_double (sign * v)
  end.

(** [parseInt(x)] at an argument that may be [undefined]: the argument is
    first converted to the string ["undefined"]. *)
Definition parseInt_opt (x : option string) : number :=
  match x with
  | Some s => parseInt s
  | None => parseInt "undefined"
  end.

(** [n || d] on numbers: [NaN] and zero are falsy. *)
Definition or_number (n d : number) : number :=
  match n with
  | NaN => d
  | Int z => if z =? 0 then d else n
  | Infinity _ => n
  end.

(** [0 < n] on numbers. *)
Definition positive (n : number) : Prop :=
  match n with
  | NaN => False
  | Int z => 0 < z
  | Infinity negative => negative = false
  end.

End JS.

(** ** Regular expressions

    A backtracking matcher in continuation-passing style for the fragment of
    ECMAScript regular expressions that the message pattern uses: literal
    text, a character class, sequencing, the greedy star of a class, the
    greedy optional [r?] and capture groups.  Alternatives are tried in the
    order of the ECMAScript semantics, so the first match found is the one
    [String.prototype.match] reports. *)

Module RegExp.

Inductive regex : Type :=
| Str (lit : string)
| Chr (p : ascii -> bool)
| Seq (r1 r2 : regex)
| StarChr (p : ascii -> bool)
| Opt (r : regex)
| Group (n : nat) (r : regex).

(** The text matched between input [s] and the rest [s'] of it. *)
Definition consumed (s s' : string) : string :=
  String.substring 0 (String.length s - String.length s') s.

Section Matcher.
Context {R : Type}.

Definition cont : Type := string -> gmap nat string -> option R.

(** [p*]: as many code units as possible first, then fewer. *)
Fixpoint star_chr (p : ascii -> bool) (s : string) (caps : gmap nat string)
    (k : cont) : option R :=
  match s with
  | String c s' =>
      if p c then
        match star_chr p s' caps k with
        | Some x => Some x
        | None => k s caps
        end
      else k s caps
  | EmptyString => k s caps
  end.

Fixpoint rmatch (r : regex) (s : string) (caps : gmap nat string)
    (k : cont) : option R :=
  match r with
  | Str lit =>
      if String.prefix lit s then k (JS.drop (String.length lit) s) caps else None
  | Chr p =>
      match s with
      | String c s' => if p c then k s' caps else None
      | EmptyString => None
      end
  | Seq r1 r2 => rmatch r1 s caps (fun s' caps' => rmatch r2 s' caps' k)
  | StarChr p => star_chr p s caps k
  | Opt r1 =>
      (* an iteration that consumes nothing is rejected *)
      match rmatch r1 s caps
              (fun s' caps' =>
                 if (String.length s' =? String.length s)%nat then None else k s' caps')
      with
      | Some x => Some x
      | None => k s caps
      end
  | Group n r1 =>
      rmatch r1 s caps (fun s' caps' => k s' (<[n := consumed s s']> caps'))
  end.
End Matcher.

(** [s.match(r)] for a regular expression without the global flag and with
    [ngroups] capture groups: the leftmost match, as the array of the whole
    match followed by the groups ([None] for a group that took no part). *)
Fixpoint exec (r : regex) (ngroups : nat) (s : string) : option (list (option string)) :=
  match rmatch r s ∅ (fun s' caps => Some (consumed s s', caps)) with
  | Some (m, caps) => Some (Some m :: List.map (fun i => caps !! i) (List.seq 1 ngroups))
  | None =>
      match s with
      | String _ s' => exec r ngroups s'
      | EmptyString => None
      end
  end.

End RegExp.

(** ** Data of the program *)

(** [interface SlackMessage] *)
Record SlackMessage : Type := {
  text : string;
  user : string;
  channel : string;
  thread_ts : option string
}.

(** The entries of the [messages] array sent to the model: the system prompt
    has no [user] field, the transcript entries have one. *)
Module Prompt.
Record entry : Type := {
  role : string;
  content : string;
  user : option string
}.
End Prompt.

(** A [Map<string, string>] object: its own enumerable string-keyed
    properties (what [Object.keys] lists) and its [[MapData]] (what [get] and
    [set] work on).  [new Map()] has neither, and [set] touches only the
    second. *)
Record MapObject : Type := {
  own_keys : list string;
  MapData : gmap string string
}.

Definition new_Map : MapObject := {| own_keys := []; MapData := ∅ |}.

Definition Map_set (k v : string) (m : MapObject) : MapObject :=
  {| own_keys := own_keys m; MapData := <[k := v]> (MapData m) |}.

Definition Map_get (k : string) (m : MapObject) : option string := MapData m !! k.

Definition Object_keys (m : MapObject) : list string := own_keys m.

(** ** The outside world *)

Inductive error : Type :=
| ApiError (msg : string)
| TypeError (msg : string).

Definition error_to_string (e : error) : string :=
  match e with
  | ApiError msg => "Error: " ++ msg
  | TypeError msg => "TypeError: " ++ msg
  end.

Inductive outcome (A : Type) : Type :=
| Returned (a : A)
| Threw (e : error).
Arguments Returned {A} a.
Arguments Threw {A} e.

(** The [user] object of a [users.info] response. *)
Record User : Type := { name : option string }.

(** An argument of [console.log]. *)
Inductive logged : Type :=
| LogString (s : option string)
| LogNumber (n : JS.number).

(** One call to the outside, with what it answered.  For [users.info] the
    answer is the [user] field of the response, for [chat.completions.create]
    it is the [message.content] ([None] for [null]) of each choice, for the
    conversation calls the [messages] field. *)
Inductive event : Type :=
| conversations_replies (channelId ts : string) (limit : JS.number)
    (r : outcome (option (list SlackMessage)))
| conversations_history (channelId : string) (limit : JS.number)
    (r : outcome (option (list SlackMessage)))
| users_info (userId : string) (r : outcome (option User))
| chat_completions_create (model : string) (messages : list Prompt.entry)
    (temperature : Q) (r : outcome (list (option string)))
| chat_postMessage (channelId txt : string) (threadTs : option string)
    (r : outcome unit)
| console_log (args : list logged)
| console_error (msg : string).

Definition trace : Type := list event.

(** What the outside answers, given everything that happened so far. *)
Record Env : Type := {
  answer_replies :
    trace -> string -> string -> JS.number -> outcome (option (list SlackMessage));
  answer_history : trace -> string -> JS.number -> outcome (option (list SlackMessage));
  answer_users_info : trace -> string -> outcome (option User);
  answer_completion : trace -> string -> list Prompt.entry -> Q -> outcome (list (option string));
  answer_postMessage : trace -> string -> string -> option string -> outcome unit
}.

(** ** The monad of the program: a trace that grows, and exceptions *)

Definition M (A : Type) : Type := trace -> outcome A * trace.

Definition ret {A} (a : A) : M A := fun t => (Returned a, t).

Definition throw {A} (e : error) : M A := fun t => (Threw e, t).

Definition bind {A B} (m : M A) (k : A -> M B) : M B :=
  fun t =>
    match m t with
    | (Returned a, t') => k a t'
    | (Threw e, t') => (Threw e, t')
    end.

(** [try { m } catch (error) { h error }] *)
Definition try_catch {A} (m : M A) (h : error -> M A) : M A :=
  fun t =>
    match m t with
    | (Returned a, t') => (Returned a, t')
    | (Threw e, t') => h e t'
    end.

Declare Scope js_scope.
Delimit Scope js_scope with js.
Notation "'let!' x ':=' m 'in' k" := (bind m (fun x => k))
  (at level 10, x name, m at level 200, k at level 200) : js_scope.
Notation "'run!' m 'in' k" := (bind m (fun _ => k))
  (at level 10, m at level 200, k at level 200) : js_scope.

(** A call: ask the environment, record the event, return or throw. *)
Definition emit {A} (answer : trace -> outcome A) (ev : outcome A -> event) : M A :=
  fun t => let r := answer t in (r, (t ++ [ev r])%list).

Definition say (ev : event) : M unit := fun t => (Returned tt, (t ++ [ev])%list).

(** ** The program *)

Definition newline : string := String "010"%char EmptyString.

Section Program.
Variable env : Env.

Local Open Scope js_scope.

(** *** The calls of the Slack and OpenAI clients *)

Definition app_client_conversations_replies (channelId ts : string) (limit : JS.number)
  : M (option (list SlackMessage)) :=
  emit (fun t => answer_replies env t channelId ts limit)
       (conversations_replies channelId ts limit).

Definition app_client_conversations_history (channelId : string) (limit : JS.number)
  : M (option (list SlackMessage)) :=
  emit (fun t => answer_history env t channelId limit)
       (conversations_history channelId limit).

Definition app_client_users_info (userId : string) : M (option User) :=
  emit (fun t => answer_users_info env t userId) (users_info userId).

Definition openai_chat_completions_create (model : string)
    (messages : list Prompt.entry) (temperature : Q) : M (list (option string)) :=
  emit (fun t => answer_completion env t model messages temperature)
       (chat_completions_create model messages temperature).

Definition app_client_chat_postMessage (channelId txt : string)
    (threadTs : option string) : M unit :=
  emit (fun t => answer_postMessage env t channelId txt threadTs)
       (chat_postMessage channelId txt threadTs).

(** *** [fetchRecentMessages] (lines 44-74) *)

Definition fetchRecentMessages (channelId : string) (limit : option JS.number)
    (thread_ts : option string) : M (list SlackMessage) :=
  let limit := match limit with Some l => l | None => JS.Int 10 end in
  try_catch
    (let! result :=
       match thread_ts with
       | Some (String c s) =>
           app_client_conversations_replies channelId (String c s) limit
       | _ => app_client_conversations_history channelId limit
       end in
     match result with
     | Some messages => ret messages
     | None => ret []
     end)
    (fun error =>
       run! say (console_error ("Error fetching messages: " ++ error_to_string error)) in
       ret []).

(** *** [systemPrompt] (lines 96-107) *)

Definition systemPrompt (question : option string) : Prompt.entry :=
  {| Prompt.role := "system";
     Prompt.content :=
       "You are a helpful assistant. You will summarize the conversation using Korean only. You should answer the question if the last message starts with `@#*&Question: ` else you just create a helpful summary WITHOUT ORIGINAL MESSAGES. The summary should contain speaker names. Do not include the messages directly in the summary.";
     Prompt.user := None |}.

(** *** [getUserMap] (lines 111-120) *)

(** [userInfo.user?.name] *)
Definition user_name (userInfo : option User) : option string :=
  match userInfo with
  | Some u => name u
  | None => None
  end.

Fixpoint getUserMap_loop (users : list string) (userMap : MapObject) : M MapObject :=
  match users with
  | [] => ret userMap
  | user :: rest =>
      let! userInfo := app_client_users_info user in
      getUserMap_loop rest
        (Map_set user (JS.or_string (user_name userInfo) "Unknown") userMap)
  end.

Definition getUserMap (users : list string) : M MapObject :=
  getUserMap_loop users new_Map.

(** *** [summarizeText] (lines 122-176) *)

(** The inner loop (lines 145-150): one [replace] per key that
    [Object.keys] lists for the map object. *)
Definition rewrite_mentions (usersMap : MapObject) (txt : string) : string :=
  List.fold_left
    (fun txt userId =>
       JS.replace txt ("<@" ++ userId ++ ">")
         (JS.or_string (Map_get userId usersMap) "Unknown"))
    (Object_keys usersMap) txt.

(** The outer loop (lines 133-156).  It returns the [chats] objects as the
    loop leaves them (line 146 assigns to [chat.text]) and the [messages]
    array with the entries pushed. *)
Fixpoint transcript_loop (usersMap : MapObject) (chats : list SlackMessage)
    (messages : list Prompt.entry) : list SlackMessage * list Prompt.entry :=
  match chats with
  | [] => ([], messages)
  | chat :: rest =>
      if JS.startsWith (text chat) "!summarize" then
        let '(rest', messages') := transcript_loop usersMap rest messages in
        (chat :: rest', messages')
      else
        let speaker := JS.or_string (Map_get (user chat) usersMap) "Unknown" in
        if String.eqb speaker "summarizer" then
          let '(rest', messages') := transcript_loop usersMap rest messages in
          (chat :: rest', messages')
        else if JS.startsWith (text chat) "<@U07AF4DJWRH>" then
          let '(rest', messages') := transcript_loop usersMap rest messages in
          (chat :: rest', messages')
        else
          let chat' :=
            {| text := rewrite_mentions usersMap (text chat);
               user := user chat;
               channel := channel chat;
               thread_ts := thread_ts chat |} in
          let entry :=
            {| Prompt.role := "user";
               Prompt.content := speaker ++ ": " ++ text chat';
               Prompt.user := Some speaker |} in
          let '(rest', messages') :=
            transcript_loop usersMap rest (messages ++ [entry])%list in
          (chat' :: rest', messages')
  end.

(** Lines 159-165. *)
Definition push_question (question : option string)
    (messages : list Prompt.entry) : list Prompt.entry :=
  match question with
  | Some (String c s) =>
      (messages ++
         [ {| Prompt.role := "user";
              Prompt.content := "@#*&Question: " ++ String c s;
              Prompt.user := Some "definetly not a bot" |} ])%list
  | _ => messages
  end.

Definition summarizeText (chats : list SlackMessage) (question : option string)
  : M string :=
  try_catch
    (let! usersMap := getUserMap (List.map user chats) in
     let messages := snd (transcript_loop usersMap chats []) in
     let systemPrmpt := systemPrompt question in
     let messages := push_question question messages in
     let! chatCompletion :=
       openai_chat_completions_create "gpt-4o" (systemPrmpt :: messages) (1 # 2) in
     match chatCompletion with
     | content0 :: _ => ret (JS.or_string content0 "No summary found.")
     | [] => throw (TypeError "Cannot read properties of undefined (reading 'message')")
     end)
    (fun error =>
       run! say (console_error ("Error summarizing text: " ++ error_to_string error)) in
       ret "Error summarizing text.").

(** *** [postMessage] (lines 178-192) *)

Definition postMessage (channelId txt : string) (threadTs : option string) : M unit :=
  try_catch
    (app_client_chat_postMessage channelId txt threadTs)
    (fun error =>
       say (console_error ("Error posting message: " ++ error_to_string error))).

(** *** [handleSummarizeRequest] (lines 194-206) *)

Definition handleSummarizeRequest (channelId : string) (question : option string)
    (threadTs : option string) (limit : option JS.number) : M unit :=
  let limit := match limit with Some l => l | None => JS.Int 10 end in
  let! messages := fetchRecentMessages channelId (Some limit) threadTs in
  match messages with
  | _ :: _ =>
      let! summary := summarizeText messages question in
      postMessage channelId summary threadTs
  | [] => ret tt
  end.

(** *** The [app_mention] listener (lines 208-253) *)

Definition options : list (string * string) :=
  [ ("--help", "Show help");
    ("--version", "Show version");
    ("--limit", "Set the limit of messages to summarize") ].

Definition helpText : string :=
  ("```Usage: @Summarizer [summarize|question] [options]" ++ newline ++
   " If no question is provided but 'summarize', the last 10 messages will be summarized." ++ newline)
  ++ JS.join (List.map (fun kv => fst kv ++ ": " ++ snd kv) options) newline
  ++ "```".

(** Lines 237-247: the question and the limit that the listener hands to
    [handleSummarizeRequest].  Reading [parts[1]] or [parts[0]] outside the
    array gives [undefined], and calling [trim] on it throws. *)
Definition mention_request (prompt : string) : outcome (option string * JS.number) :=
  let undefined_trim :=
    TypeError "Cannot read properties of undefined (reading 'trim')" in
  if JS.includes prompt "--limit" then
    let parts := JS.split prompt "--limit" in
    match List.nth_error parts 1 with
    | None => Threw undefined_trim
    | Some part1 =>
        let limit := JS.or_number (JS.parseInt (JS.trim part1)) (JS.Int 10) in
        match List.nth_error parts 0 with
        | None => Threw undefined_trim
        | Some prompt' =>
            if String.eqb (JS.trim prompt') "summarize"
            then Returned (None, limit)
            else Returned (Some prompt', limit)
        end
    end
  else
    if String.eqb (JS.trim prompt) "summarize"
    then Returned (None, JS.Int 10)
    else Returned (Some prompt, JS.Int 10).

Definition app_mention (event : SlackMessage) : M unit :=
  try_catch
    (run! say (console_log [LogString (Some "Event: "); LogString (Some (text event))]) in
     let prompt := JS.join (JS.slice1 (JS.split (text event) " ")) " " in
     run! say (console_log [LogString (Some "Prompt: "); LogString (Some prompt)]) in
     if String.eqb (JS.trim prompt) "--help" then
       postMessage (channel event) helpText (thread_ts event)
     else if String.eqb (JS.trim prompt) "--version" then
       postMessage (channel event) "v1.0.0" (thread_ts event)
     else
       match mention_request prompt with
       | Threw e => throw e
       | Returned (question, limit) =>
           handleSummarizeRequest (channel event) question (thread_ts event) (Some limit)
       end)
    (fun error =>
       say (console_error ("Error handling app_mention event: " ++ error_to_string error))).

(** *** The message listener (lines 255-269) *)

(** The pattern of line 256: the text [!summarize], white space, as group 1
    an optional double-quoted text on one line, white space, and as group 2
    decimal digits; both white-space parts and the digits may be empty. *)
Definition summarize_pattern : RegExp.regex :=
  RegExp.Seq (RegExp.Str "!summarize")
    (RegExp.Seq (RegExp.StarChr JS.is_white_space)
       (RegExp.Seq
          (RegExp.Opt
             (RegExp.Group 1
                (RegExp.Seq (RegExp.Chr (Ascii.eqb JS.dquote))
                   (RegExp.Seq (RegExp.StarChr (fun c => negb (JS.is_line_terminator c)))
                      (RegExp.Chr (Ascii.eqb JS.dquote))))))
          (RegExp.Seq (RegExp.StarChr JS.is_white_space)
             (RegExp.Group 2 (RegExp.StarChr JS.is_decimal_digit))))).

(** [context.matches[i]] *)
Definition matches_at (matches : list (option string)) (i : nat) : option string :=
  List.nth i matches None.

(** Lines 259-260: the question and the limit that the listener hands to
    [handleSummarizeRequest]. *)
Definition message_request (matches : list (option string)) : option string * JS.number :=
  let question := matches_at matches 1 in
  let limit := JS.or_number (JS.parseInt_opt (matches_at matches 2)) (JS.Int 10) in
  (question, limit).

(** Bolt calls the listener for a message whose text matches the pattern,
    with [context.matches] the result of [text.match(pattern)]. *)
Definition app_message (message : SlackMessage) : M unit :=
  match RegExp.exec summarize_pattern 2 (text message) with
  | None => ret tt
  | Some matches =>
      try_catch
        (let '(question, limit) := message_request matches in
         run! say (console_log [LogString (Some "Question: "); LogString question]) in
          run! say (console_log [LogString (Some "Limit: "); LogNumber limit]) in
         handleSummarizeRequest (channel message) question (thread_ts message)
           (Some limit))
        (fun error =>
           say (console_error ("Error handling message event: " ++ error_to_string error)))
  end.

End Program.

(** ** Observations on a trace *)

(** The calls to [chat.postMessage]: channel, text and thread. *)
Definition posts (t : trace) : list (string * string * option string) :=
  List.flat_map
    (fun ev =>
       match ev with
       | chat_postMessage channelId txt threadTs _ => [(channelId, txt, threadTs)]
       | _ => []
       end) t.

(** The calls to [conversations.replies] and [conversations.history]:
    channel, thread (for [replies]) and limit. *)
Definition fetches (t : trace) : list (string * option string * JS.number) :=
  List.flat_map
    (fun ev =>
       match ev with
       | conversations_replies channelId ts limit _ => [(channelId, Some ts, limit)]
       | conversations_history channelId limit _ => [(channelId, None, limit)]
       | _ => []
       end) t.

(** The [messages] arrays handed to the model, each with the outcome of the
    call. *)
Definition prompts (t : trace) : list (list Prompt.entry * outcome (list (option string))) :=
  List.flat_map
    (fun ev =>
       match ev with
       | chat_completions_create _ messages _ r => [(messages, r)]
       | _ => []
       end) t.

(** The three [continue] conditions of the loop of [summarizeText], lines
    134, 138 and 141. *)
Definition skipped (usersMap : MapObject) (chat : SlackMessage) : bool :=
  JS.startsWith (text chat) "!summarize"
  || String.eqb (JS.or_string (Map_get (user chat) usersMap) "Unknown") "summarizer"
  || JS.startsWith (text chat) "<@U07AF4DJWRH>".

(** The prompt of the question trigger of the scenario, with its quotes. *)
Definition quoted_question : string :=
  String JS.dquote ("what was decided?" ++ String JS.dquote EmptyString).

Definition question_trigger : string := "!summarize " ++ quoted_question ++ " 5".

(** The entry pushed at lines 151-155 for a message that is not skipped. *)
Definition pushed_entry (usersMap : MapObject) (chat : SlackMessage) : Prompt.entry :=
  let speaker := JS.or_string (Map_get (user chat) usersMap) "Unknown" in
  {| Prompt.role := "user";
     Prompt.content := speaker ++ ": " ++ rewrite_mentions usersMap (text chat);
     Prompt.user := Some speaker |}.

(** ** Sample runs

    A channel with three messages, one of them a command, and outside worlds
    in which everything works, the model is down, Slack's history is down, or
    one user cannot be looked up. *)

Definition sample_chats : list SlackMessage :=
  [ {| text := "hi <@U2>"; user := "U1"; channel := "C1"; thread_ts := None |};
    {| text := "!summarize"; user := "U2"; channel := "C1"; thread_ts := None |};
    {| text := "hello"; user := "U2"; channel := "C1"; thread_ts := None |} ].

Definition sample_env : Env :=
  {| answer_replies := fun _ _ _ _ => Returned (Some sample_chats);
     answer_history := fun _ _ _ => Returned (Some sample_chats);
     answer_users_info := fun _ u =>
       Returned (Some {| name := if String.eqb u "U1" then Some "alice"
                                 else if String.eqb u "U2" then Some "bob"
                                 else None |});
     answer_completion := fun _ _ _ _ => Returned [Some "A summary."];
     answer_postMessage := fun _ _ _ _ => Returned tt |}.

Definition model_down_env : Env :=
  {| answer_replies := answer_replies sample_env;
     answer_history := answer_history sample_env;
     answer_users_info := answer_users_info sample_env;
     answer_completion := fun _ _ _ _ => Threw (ApiError "429 quota exceeded");
     answer_postMessage := answer_postMessage sample_env |}.

Definition history_down_env : Env :=
  {| answer_replies := answer_replies sample_env;
     answer_history := fun _ _ _ => Threw (ApiError "channel_not_found");
     answer_users_info := answer_users_info sample_env;
     answer_completion := answer_completion sample_env;
     answer_postMessage := answer_postMessage sample_env |}.

Definition lookup_down_env : Env :=
  {| answer_replies := answer_replies sample_env;
     answer_history := answer_history sample_env;
     answer_users_info := fun t u =>
       if String.eqb u "U404" then Threw (ApiError "user_not_found")
       else answer_users_info sample_env t u;
     answer_completion := answer_completion sample_env;
     answer_postMessage := answer_postMessage sample_env |}.

(** The map and the trace of [getUserMap] on the authors of the sample
    channel. *)
Definition sample_usersMap : MapObject :=
  Map_set "U2" "bob" (Map_set "U2" "bob" (Map_set "U1" "alice" new_Map)).

Definition sample_lookups : trace :=
  [ users_info "U1" (Returned (Some {| name := Some "alice" |}));
    users_info "U2" (Returned (Some {| name := Some "bob" |}));
    users_info "U2" (Returned (Some {| name := Some "bob" |})) ].


Definition unparsable_limit_mention : SlackMessage :=
  {| text := "<@U07AF4DJWRH> summarize --limit many"; user := "U1"; channel := "C1";
     thread_ts := None |}.

Definition digits_message : SlackMessage :=
  {| text := "please !summarize 7"; user := "U1"; channel := "C1"; thread_ts := None |}.

Definition bare_message : SlackMessage :=
  {| text := "!summarize"; user := "U1"; channel := "C1"; thread_ts := None |}.

Definition question_message : SlackMessage :=
  {| text := question_trigger; user := "U1"; channel := "C1"; thread_ts := None |}.

(** A regular expression all of whose parts may match the empty text: the
    star of a class, an optional part, and sequences and groups of such. *)
Fixpoint never_fails (r : RegExp.regex) : bool :=
  match r with
  | RegExp.Str _ | RegExp.Chr _ => false
  | RegExp.Seq r1 r2 => never_fails r1 && never_fails r2
  | RegExp.StarChr _ | RegExp.Opt _ => true
  | RegExp.Group _ r1 => never_fails r1
  end.

(** The identifiers looked up with [users.info], in the order of the calls,
    and those among them whose call threw. *)
Definition lookups (t : trace) : list string :=
  List.flat_map
    (fun ev => match ev with users_info userId _ => [userId] | _ => [] end) t.

Definition failed_lookups (t : trace) : list string :=
  List.flat_map
    (fun ev => match ev with users_info userId (Threw _) => [userId] | _ => [] end) t.

(** The texts written with [console.error]. *)
Definition console_errors (t : trace) : list string :=
  List.flat_map
    (fun ev => match ev with console_error msg => [msg] | _ => [] end) t.

(** The stage of the pipeline a call belongs to: 0 for the fetch, 1 for a
    user lookup, 2 for the model, 3 for the reply.  Console output belongs to
    no stage. *)
Definition stages (t : trace) : list nat :=
  List.flat_map
    (fun ev =>
       match ev with
       | conversations_replies _ _ _ _ | conversations_history _ _ _ => [0%nat]
       | users_info _ _ => [1%nat]
       | chat_completions_create _ _ _ _ => [2%nat]
       | chat_postMessage _ _ _ _ => [3%nat]
       | console_log _ | console_error _ => []
       end) t.

(** The conversation call that [fetchRecentMessages] makes (lines 51-62):
    what the outside answers to it, and its event. *)
Definition conversation_answer (env : Env) (t : trace) (channelId : string)
    (thread_ts : option string) (limit : JS.number) : outcome (option (list SlackMessage)) :=
  match thread_ts with
  | Some (String c s) => answer_replies env t channelId (String c s) limit
  | _ => answer_history env t channelId limit
  end.

Definition conversation_event (channelId : string) (thread_ts : option string)
    (limit : JS.number) (r : outcome (option (list SlackMessage))) : event :=
  match thread_ts with
  | Some (String c s) => conversations_replies channelId (String c s) limit r
  | _ => conversations_history channelId limit r
  end.

(** A channel whose only message is from an author that cannot be looked
    up. *)
Definition stranger_env : Env :=
  {| answer_replies := answer_replies sample_env;
     answer_history := fun _ _ _ =>
       Returned (Some [ {| text := "anyone here?"; user := "U404"; channel := "C1";
                           thread_ts := None |} ]);
     answer_users_info := answer_users_info lookup_down_env;
     answer_completion := answer_completion sample_env;
     answer_postMessage := answer_postMessage sample_env |}.


(** The text of [n] digits 9. *)
Fixpoint nines (n : nat) : string :=
  match n with
  | O => EmptyString
  | S n' => String "9"%char (nines n')
  end.

(** A message without the command word. *)
Definition chat_message : SlackMessage :=
  {| text := "good morning, summarize this for me"; user := "U1"; channel := "C1";
     thread_ts := None |}.

(** * Properties *)

(** ** Traces only grow, and which events each function adds *)

Lemma posts_app (t1 t2 : trace) : posts (t1 ++ t2)%list = (posts t1 ++ posts t2)%list.
Proof. apply List.flat_map_app. Qed.

Lemma fetches_app (t1 t2 : trace) : fetches (t1 ++ t2)%list = (fetches t1 ++ fetches t2)%list.
Proof. apply List.flat_map_app. Qed.

Lemma prompts_app (t1 t2 : trace) : prompts (t1 ++ t2)%list = (prompts t1 ++ prompts t2)%list.
Proof. apply List.flat_map_app. Qed.

Section FetchFacts.
Variable env : Env.

(** The default of the [limit] parameter changes nothing when a limit is
    passed. *)
Lemma fetchRecentMessages_default channelId limit threadTs :
  fetchRecentMessages env channelId
    (Some (match limit with Some l => l | None => JS.Int 10 end)) threadTs
  = fetchRecentMessages env channelId limit threadTs.
Proof. destruct limit; reflexivity. Qed.

(** [fetchRecentMessages] always returns; it makes exactly one conversation
    call, with the limit it was given, and posts nothing. *)
Lemma fetchRecentMessages_spec channelId limit threadTs t :
  exists chats evs,
    fetchRecentMessages env channelId (Some limit) threadTs t
      = (Returned chats, (t ++ evs)%list)
    /\ posts evs = [] /\ prompts evs = []
    /\ fetches evs
       = [(channelId, if JS.truthy threadTs then threadTs else None, limit)].
Proof.
  unfold fetchRecentMessages, try_catch, bind, ret, say.
  destruct threadTs as [[|c s]|]; simpl;
    unfold app_client_conversations_history, app_client_conversations_replies, emit;
    match goal with
    | |- context [answer_history ?e ?t ?c ?l] => destruct (answer_history e t c l) as [[ms|]|err] eqn:Hans
    | |- context [answer_replies ?e ?t ?c ?s ?l] => destruct (answer_replies e t c s l) as [[ms|]|err] eqn:Hans
    end;
    try (eexists; eexists; split; [reflexivity|]; repeat split; reflexivity);
    (eexists; eexists; split; [rewrite <- List.app_assoc; reflexivity|]; repeat split; reflexivity).
Qed.

(** A conversation call that throws is absorbed: the result is the empty
    array. *)
Lemma fetchRecentMessages_absorbs channelId limit threadTs t e :
  (if JS.truthy threadTs
   then answer_replies env t channelId (JS.or_string threadTs EmptyString) limit
   else answer_history env t channelId limit) = Threw e ->
  fst (fetchRecentMessages env channelId (Some limit) threadTs t) = Returned [].
Proof.
  unfold fetchRecentMessages, try_catch, bind, ret, say.
  destruct threadTs as [[|c s]|]; simpl;
    unfold app_client_conversations_history, app_client_conversations_replies, emit;
    intros ->; reflexivity.
Qed.
End FetchFacts.

Lemma prompts_In (t : trace) model messages temperature r :
  In (chat_completions_create model messages temperature r) t ->
  In (messages, r) (prompts t).
Proof.
  intros Hin. unfold prompts. apply List.in_flat_map.
  eexists; split; [exact Hin | simpl; auto].
Qed.

Section UserMapFacts.
Variable env : Env.

(** [set] never adds a property to the map object. *)
Lemma own_keys_Map_set k v m : own_keys (Map_set k v m) = own_keys m.
Proof. reflexivity. Qed.

(** The loop of [getUserMap] makes only [users.info] calls. *)
Lemma getUserMap_loop_events users : forall userMap t,
  exists r evs,
    getUserMap_loop env users userMap t = (r, (t ++ evs)%list)
    /\ posts evs = [] /\ prompts evs = [] /\ fetches evs = [].
Proof.
  induction users as [|u rest IH]; intros userMap t; simpl.
  - exists (Returned userMap), []. rewrite List.app_nil_r. auto.
  - unfold bind, app_client_users_info, emit.
    destruct (answer_users_info env t u) as [info|e] eqn:Hans.
    + destruct (IH (Map_set u (JS.or_string (user_name info) "Unknown") userMap)
                  (t ++ [users_info u (Returned info)])%list)
        as (r & evs & Heq & Hp & Hc & Hf).
      exists r, (users_info u (Returned info) :: evs).
      rewrite Heq, <- List.app_assoc. simpl. auto.
    + exists (Threw e), [users_info u (Threw e)]. auto.
Qed.

(** What the loop of [getUserMap] leaves in the map when it returns. *)
Lemma getUserMap_loop_returned users : forall userMap t m t',
  getUserMap_loop env users userMap t = (Returned m, t') ->
  exists evs,
    t' = (t ++ evs)%list
    /\ own_keys m = own_keys userMap
    /\ (forall u, In u users -> exists n, Map_get u m = Some n)
    /\ (forall u, ~ In u users -> Map_get u m = Map_get u userMap)
    /\ (forall u, In u users ->
          (forall r, In (users_info u r) evs ->
             exists info, r = Returned info /\ JS.truthy (user_name info) = false) ->
          Map_get u m = Some "Unknown").
Proof.
  induction users as [|u0 rest IH]; intros userMap t m t'; simpl.
  - unfold ret. intros [= <- <-]. exists []. rewrite List.app_nil_r.
    repeat split; auto; intros u []; contradiction.
  - unfold bind, app_client_users_info, emit.
    destruct (answer_users_info env t u0) as [info|e] eqn:Hans; [|discriminate].
    intros Hloop. apply IH in Hloop as (evs & -> & Hkeys & Hdom & Hframe & Hunk).
    exists (users_info u0 (Returned info) :: evs).
    rewrite <- List.app_assoc. simpl. split; [reflexivity|].
    split; [rewrite Hkeys; reflexivity|].
    assert (Hhere : ~ In u0 rest ->
              Map_get u0 m = Some (JS.or_string (user_name info) "Unknown")).
    { intros Hnot. rewrite (Hframe _ Hnot). unfold Map_get, Map_set. simpl.
      apply lookup_insert_eq. }
    split; [|split].
    + intros u [<-|Hin]; [|auto].
      destruct (List.in_dec string_dec u0 rest) as [Hin|Hnot]; [auto|].
      rewrite (Hhere Hnot). eauto.
    + intros u Hnot. rewrite Hframe by tauto.
      unfold Map_get, Map_set. simpl. apply lookup_insert_ne. tauto.
    + intros u Hu Hall.
      destruct (List.in_dec string_dec u rest) as [Hin|Hnot].
      * apply Hunk; [exact Hin|]. intros r Hr. apply Hall. right. exact Hr.
      * destruct Hu as [<-|Hin]; [|contradiction].
        rewrite (Hhere Hnot).
        destruct (Hall (Returned info)) as (info' & [= <-] & Hfalsy); [left; reflexivity|].
        destruct (user_name info) as [[|c s]|]; simpl in *; congruence.
Qed.

(** [Object.keys] of the map that [getUserMap] returns is the empty array. *)
Lemma getUserMap_Object_keys users t usersMap t' :
  getUserMap env users t = (Returned usersMap, t') ->
  Object_keys usersMap = [].
Proof.
  unfold getUserMap. intros H.
  apply getUserMap_loop_returned in H as (evs & _ & Hkeys & _).
  unfold Object_keys. rewrite Hkeys. reflexivity.
Qed.
End UserMapFacts.

(** With no key to iterate over, the inner loop leaves the text alone. *)
Lemma rewrite_mentions_no_keys usersMap txt :
  Object_keys usersMap = [] -> rewrite_mentions usersMap txt = txt.
Proof. unfold rewrite_mentions. intros ->. reflexivity. Qed.

Section PipelineFacts.
Variable env : Env.

(** [postMessage] always returns and makes exactly one [chat.postMessage]
    call. *)
Lemma postMessage_spec channelId txt threadTs t :
  exists evs,
    postMessage env channelId txt threadTs t = (Returned tt, (t ++ evs)%list)
    /\ posts evs = [(channelId, txt, threadTs)]
    /\ prompts evs = [] /\ fetches evs = [].
Proof.
  unfold postMessage, try_catch, app_client_chat_postMessage, emit, say.
  destruct (answer_postMessage env t channelId txt threadTs) as [[]|e].
  - eexists; split; [reflexivity|]. auto.
  - eexists; split; [rewrite <- List.app_assoc; reflexivity|]. auto.
Qed.

(** [summarizeText] always returns.  It posts and fetches nothing; it calls
    the model at most once, with the system prompt, the transcript and the
    question entry; and when that call throws, the result is the fallback
    text. *)
Lemma summarizeText_spec chats question t :
  exists summary evs,
    summarizeText env chats question t = (Returned summary, (t ++ evs)%list)
    /\ posts evs = [] /\ fetches evs = []
    /\ (prompts evs = []
        \/ exists usersMap t1 r,
             getUserMap env (List.map user chats) t = (Returned usersMap, t1)
             /\ prompts evs
                = [(systemPrompt question
                      :: push_question question (snd (transcript_loop usersMap chats [])),
                    r)]
             /\ (forall e, r = Threw e -> summary = "Error summarizing text.")).
Proof.
  unfold summarizeText, try_catch, bind.
  destruct (getUserMap_loop_events env (List.map user chats) new_Map t)
    as (ru & uevs & Hu & Hup & Huc & Huf).
  unfold getUserMap at 1. rewrite Hu.
  destruct ru as [usersMap|e].
  - unfold openai_chat_completions_create, emit.
    set (msgs := systemPrompt question
                   :: push_question question (snd (transcript_loop usersMap chats []))).
    destruct (answer_completion env (t ++ uevs)%list "gpt-4o" msgs (1 # 2))
      as [[|content0 rest]|e] eqn:Hans; unfold throw, ret, say.
    + eexists; eexists; split; [rewrite <- !List.app_assoc; reflexivity|].
      rewrite !posts_app, !fetches_app, !prompts_app, Hup, Huf, Huc. simpl.
      repeat split; auto. right. exists usersMap, (t ++ uevs)%list; eexists.
      split; [exact Hu|]. split; [reflexivity|]. discriminate.
    + eexists; eexists; split; [rewrite <- !List.app_assoc; reflexivity|].
      rewrite !posts_app, !fetches_app, !prompts_app, Hup, Huf, Huc. simpl.
      repeat split; auto. right. exists usersMap, (t ++ uevs)%list; eexists.
      split; [exact Hu|]. split; [reflexivity|]. discriminate.
    + eexists; eexists; split; [rewrite <- !List.app_assoc; reflexivity|].
      rewrite !posts_app, !fetches_app, !prompts_app, Hup, Huf, Huc. simpl.
      repeat split; auto. right. exists usersMap, (t ++ uevs)%list; eexists.
      split; [exact Hu|]. split; [reflexivity|]. reflexivity.
  - unfold say, ret.
    eexists; eexists; split; [rewrite <- !List.app_assoc; reflexivity|].
    rewrite !posts_app, !fetches_app, !prompts_app, Hup, Huf, Huc. simpl. auto.
Qed.

(** [handleSummarizeRequest], step by step. *)
Lemma handleSummarizeRequest_unfold channelId question threadTs limit t :
  handleSummarizeRequest env channelId question threadTs limit t
  = match fetchRecentMessages env channelId limit threadTs t with
    | (Returned [], t1) => (Returned tt, t1)
    | (Returned (c :: cs), t1) =>
        match summarizeText env (c :: cs) question t1 with
        | (Returned summary, t2) => postMessage env channelId summary threadTs t2
        | (Threw e, t2) => (Threw e, t2)
        end
    | (Threw e, t1) => (Threw e, t1)
    end.
Proof.
  unfold handleSummarizeRequest, bind.
  rewrite fetchRecentMessages_default.
  destruct (fetchRecentMessages env channelId limit threadTs t) as [[[|c cs]|e] t1];
    reflexivity.
Qed.
End PipelineFacts.

(** ** The pipeline when the fetch is empty or the model fails *)

(** C4.  When [fetchRecentMessages] returns the empty array (also when the
    conversation call threw and the failure was absorbed), the run of
    [handleSummarizeRequest] ends there: its trace is the trace of the fetch,
    there is no call to [chat.postMessage] and no call to the model. *)
Theorem empty_fetch_posts_nothing env channelId question threadTs limit t1 :
  fetchRecentMessages env channelId limit threadTs [] = (Returned [], t1) ->
  handleSummarizeRequest env channelId question threadTs limit [] = (Returned tt, t1)
  /\ posts t1 = [] /\ prompts t1 = [].
Proof.
  intros Hfetch. rewrite handleSummarizeRequest_unfold, Hfetch.
  split; [reflexivity|].
  rewrite <- fetchRecentMessages_default in Hfetch.
  destruct (fetchRecentMessages_spec env channelId
              (match limit with Some l => l | None => JS.Int 10 end) threadTs [])
    as (chats & evs & Heq & Hp & Hc & _).
  rewrite Heq in Hfetch. injection Hfetch as _ <-. simpl. auto.
Qed.

(** C3.  When the call to the model throws during a run of
    [handleSummarizeRequest], [summarizeText] returns the text
    ["Error summarizing text."] instead of throwing, the run returns
    normally, and [chat.postMessage] is called exactly once, with that text,
    on the channel and thread of the request. *)
Theorem model_failure_posts_fallback env channelId question threadTs limit
    model messages temperature e :
  In (chat_completions_create model messages temperature (Threw e))
     (snd (handleSummarizeRequest env channelId question threadTs limit [])) ->
  fst (handleSummarizeRequest env channelId question threadTs limit []) = Returned tt
  /\ posts (snd (handleSummarizeRequest env channelId question threadTs limit []))
     = [(channelId, "Error summarizing text.", threadTs)]
  /\ exists chats t1 t2,
       fetchRecentMessages env channelId limit threadTs [] = (Returned chats, t1)
       /\ summarizeText env chats question t1 = (Returned "Error summarizing text.", t2).
Proof.
  rewrite handleSummarizeRequest_unfold.
  rewrite <- fetchRecentMessages_default.
  destruct (fetchRecentMessages_spec env channelId
              (match limit with Some l => l | None => JS.Int 10 end) threadTs [])
    as (chats & fevs & Hfetch & Hfp & Hfc & _).
  rewrite Hfetch. simpl List.app.
  destruct chats as [|c cs].
  - simpl. intros Hin. apply prompts_In in Hin. rewrite Hfc in Hin. destruct Hin.
  - destruct (summarizeText_spec env (c :: cs) question fevs)
      as (summary & sevs & Hsum & Hsp & _ & Hsc).
    rewrite Hsum.
    destruct (postMessage_spec env channelId summary threadTs (fevs ++ sevs)%list)
      as (pevs & Hpost & Hpp & Hpc & _).
    rewrite Hpost. simpl. intros Hin. apply prompts_In in Hin.
    rewrite !prompts_app, Hfc, Hpc, List.app_nil_r in Hin. simpl in Hin.
    assert (Hfallback : summary = "Error summarizing text.").
    { destruct Hsc as [Hnone|(usersMap & tu & r & _ & Hone & Hthrew)].
      - rewrite Hnone in Hin. destruct Hin.
      - rewrite Hone in Hin. destruct Hin as [[= _ ->]|[]]. eapply Hthrew. reflexivity. }
    subst summary.
    split; [reflexivity|]. split.
    + rewrite !posts_app, Hfp, Hsp, Hpp. reflexivity.
    + eauto.
Qed.

(** ** The [--help] and [--version] replies *)


(** ** The transcript *)

(** The loop pushes, in order, one entry for each message that is not
    skipped; the objects of [chats] change only in their [text], which
    becomes the rewritten one. *)
Lemma transcript_loop_entries usersMap chats : forall messages,
  snd (transcript_loop usersMap chats messages)
  = (messages
       ++ List.map (pushed_entry usersMap)
            (List.filter (fun chat => negb (skipped usersMap chat)) chats))%list.
Proof.
  induction chats as [|chat rest IH]; intros messages; simpl.
  - rewrite List.app_nil_r. reflexivity.
  - unfold skipped at 1.
    destruct (JS.startsWith (text chat) "!summarize") eqn:Hcmd; simpl.
    { specialize (IH messages).
      destruct (transcript_loop usersMap rest messages). exact IH. }
    destruct (String.eqb (JS.or_string (Map_get (user chat) usersMap) "Unknown")
                "summarizer") eqn:Hbot; simpl.
    { specialize (IH messages).
      destruct (transcript_loop usersMap rest messages). exact IH. }
    destruct (JS.startsWith (text chat) "<@U07AF4DJWRH>") eqn:Hself; simpl.
    { specialize (IH messages).
      destruct (transcript_loop usersMap rest messages). exact IH. }
    match goal with
    | |- context [transcript_loop usersMap rest ?ms] =>
        specialize (IH ms); destruct (transcript_loop usersMap rest ms)
    end.
    simpl in *. rewrite IH, <- List.app_assoc. reflexivity.
Qed.

Lemma transcript_loop_chats usersMap chats : forall messages,
  (forall txt, rewrite_mentions usersMap txt = txt) ->
  fst (transcript_loop usersMap chats messages) = chats.
Proof.
  intros messages Hid. revert messages.
  induction chats as [|chat rest IH]; intros messages; simpl; [reflexivity|].
  repeat match goal with
         | |- context [if ?b then _ else _] => destruct b
         end;
    match goal with
    | |- context [transcript_loop usersMap rest ?ms] =>
        specialize (IH ms); destruct (transcript_loop usersMap rest ms)
    end; simpl in *; rewrite IH; try reflexivity.
  rewrite Hid. destruct chat; reflexivity.
Qed.

(** Removing the command messages first does not change which messages the
    loop keeps. *)
Lemma filter_skipped_commands usersMap chats :
  List.filter (fun chat => negb (skipped usersMap chat))
    (List.filter (fun chat => negb (JS.startsWith (text chat) "!summarize")) chats)
  = List.filter (fun chat => negb (skipped usersMap chat)) chats.
Proof.
  induction chats as [|chat rest IH]; simpl; [reflexivity|].
  destruct (JS.startsWith (text chat) "!summarize") eqn:Hcmd; simpl.
  - assert (Hskip : skipped usersMap chat = true)
      by (unfold skipped; rewrite Hcmd; reflexivity).
    rewrite Hskip. simpl. exact IH.
  - destruct (negb (skipped usersMap chat)); rewrite IH; reflexivity.
Qed.

(** C5.  In a run of [handleSummarizeRequest], every [messages] array
    handed to the model is the system prompt, then the transcript, then the
    question entry, and the transcript is the one the loop builds from the
    fetched messages with every message whose text starts with [!summarize]
    removed: such a message contributes no entry. *)
Theorem command_messages_not_in_transcript env channelId question threadTs limit
    model messages temperature r :
  In (chat_completions_create model messages temperature r)
     (snd (handleSummarizeRequest env channelId question threadTs limit [])) ->
  exists chats t1 usersMap t2,
    fetchRecentMessages env channelId limit threadTs [] = (Returned chats, t1)
    /\ getUserMap env (List.map user chats) t1 = (Returned usersMap, t2)
    /\ snd (transcript_loop usersMap chats [])
       = snd (transcript_loop usersMap
                (List.filter (fun chat => negb (JS.startsWith (text chat) "!summarize")) chats)
                [])
    /\ messages
       = systemPrompt question
           :: push_question question
                (snd (transcript_loop usersMap
                        (List.filter
                           (fun chat => negb (JS.startsWith (text chat) "!summarize")) chats)
                        []))
    /\ (forall entry,
          In entry (snd (transcript_loop usersMap chats [])) ->
          exists chat,
            In chat chats
            /\ JS.startsWith (text chat) "!summarize" = false
            /\ entry = pushed_entry usersMap chat).
Proof.
  rewrite handleSummarizeRequest_unfold.
  rewrite <- fetchRecentMessages_default.
  destruct (fetchRecentMessages_spec env channelId
              (match limit with Some l => l | None => JS.Int 10 end) threadTs [])
    as (chats & fevs & Hfetch & Hfp & Hfc & _).
  rewrite Hfetch. simpl List.app.
  assert (Hfilter : forall usersMap,
    snd (transcript_loop usersMap chats [])
    = snd (transcript_loop usersMap
             (List.filter (fun chat => negb (JS.startsWith (text chat) "!summarize")) chats)
             [])).
  { intros usersMap. rewrite !transcript_loop_entries.
    rewrite filter_skipped_commands. reflexivity. }
  destruct chats as [|c cs].
  - simpl. intros Hin. apply prompts_In in Hin. rewrite Hfc in Hin. destruct Hin.
  - destruct (summarizeText_spec env (c :: cs) question fevs)
      as (summary & sevs & Hsum & Hsp & _ & Hsc).
    rewrite Hsum.
    destruct (postMessage_spec env channelId summary threadTs (fevs ++ sevs)%list)
      as (pevs & Hpost & Hpp & Hpc & _).
    rewrite Hpost. simpl snd. intros Hin. apply prompts_In in Hin.
    rewrite !prompts_app, Hfc, Hpc, List.app_nil_r in Hin. simpl in Hin.
    destruct Hsc as [Hnone|(usersMap & tu & r0 & Hmap & Hone & _)].
    + rewrite Hnone in Hin. destruct Hin.
    + rewrite Hone in Hin. destruct Hin as [[= <- _]|[]].
      exists (c :: cs), fevs, usersMap, tu.
      split; [reflexivity|]. split; [exact Hmap|].
      split; [apply Hfilter|]. split; [rewrite <- Hfilter; reflexivity|].
      intros entry. rewrite transcript_loop_entries, List.app_nil_l.
      intros Hin. apply List.in_map_iff in Hin as (chat & <- & Hkept).
      apply List.filter_In in Hkept as [Hchat Hkept].
      exists chat. split; [exact Hchat|]. split; [|reflexivity].
      unfold skipped in Hkept.
      destruct (JS.startsWith (text chat) "!summarize"); [discriminate|reflexivity].
Qed.

(** C10.  For the map that [getUserMap] returns, [Object.keys] lists
    nothing, so the inner loop never runs: the loop of [summarizeText] leaves
    every [chat] object as it was, and pushes for each message that is not
    skipped the entry whose content is the speaker name, a colon, a space
    and the text of the message as it was fetched. *)
Theorem transcript_entries_keep_text env users t usersMap t' chats :
  getUserMap env users t = (Returned usersMap, t') ->
  (forall txt, rewrite_mentions usersMap txt = txt)
  /\ fst (transcript_loop usersMap chats []) = chats
  /\ snd (transcript_loop usersMap chats [])
     = List.map
         (fun chat =>
            let speaker := JS.or_string (Map_get (user chat) usersMap) "Unknown" in
            {| Prompt.role := "user";
               Prompt.content := speaker ++ ": " ++ text chat;
               Prompt.user := Some speaker |})
         (List.filter (fun chat => negb (skipped usersMap chat)) chats).
Proof.
  intros Hmap. apply getUserMap_Object_keys in Hmap.
  assert (Hid : forall txt, rewrite_mentions usersMap txt = txt)
    by (intros txt; apply rewrite_mentions_no_keys, Hmap).
  split; [exact Hid|]. split; [apply transcript_loop_chats, Hid|].
  rewrite transcript_loop_entries. simpl.
  apply List.map_ext. intros chat. unfold pushed_entry. rewrite Hid. reflexivity.
Qed.

(** C6.  For the map that [getUserMap] returns, rewriting a text twice gives
    what rewriting it once gives, and running the loop again on the [chats]
    objects that a first run left behind pushes the same entries. *)
Theorem rewrite_mentions_idempotent env users t usersMap t' :
  getUserMap env users t = (Returned usersMap, t') ->
  forall txt chats,
    rewrite_mentions usersMap (rewrite_mentions usersMap txt)
    = rewrite_mentions usersMap txt
    /\ snd (transcript_loop usersMap (fst (transcript_loop usersMap chats [])) [])
       = snd (transcript_loop usersMap chats []).
Proof.
  intros Hmap txt chats. apply getUserMap_Object_keys in Hmap.
  assert (Hid : forall x, rewrite_mentions usersMap x = x)
    by (intros x; apply rewrite_mentions_no_keys, Hmap).
  split; [rewrite !Hid; reflexivity|].
  rewrite transcript_loop_chats by exact Hid. reflexivity.
Qed.

(** C1.  The claim that every mention token is replaced by the display name
    does not hold of the code.  In the sample channel the first message mentions
    U2, whom the map resolves to bob, yet the entry handed to the model still
    carries the token. *)
Theorem mention_token_left_in_place :
  match fst (getUserMap sample_env (List.map user sample_chats) []) with
  | Returned usersMap =>
      Map_get "U2" usersMap = Some "bob"
      /\ JS.replace "hi <@U2>" "<@U2>" "bob" = "hi bob"
      /\ List.map Prompt.content (snd (transcript_loop usersMap sample_chats []))
         = ["alice: hi <@U2>"; "bob: hello"]
  | Threw _ => False
  end
  /\ List.map (fun p => List.map Prompt.content (fst p))
       (prompts (snd (handleSummarizeRequest sample_env "C1" None None (Some (JS.Int 10)) [])))
     = [[Prompt.content (systemPrompt None); "alice: hi <@U2>"; "bob: hello"]].
Proof. vm_compute. repeat split; reflexivity. Qed.

(** ** The user map *)

(** A lookup that throws is not absorbed by [getUserMap]: no map is
    returned, so the identifier is not mapped to ["Unknown"]. *)
Lemma lookup_failure_propagates :
  fst (getUserMap lookup_down_env ["U1"; "U404"] []) = Threw (ApiError "user_not_found")
  /\ ~ (exists usersMap t',
          getUserMap lookup_down_env ["U1"; "U404"] [] = (Returned usersMap, t')
          /\ Map_get "U404" usersMap = Some "Unknown").
Proof.
  split; [vm_compute; reflexivity|].
  intros (usersMap & t' & Hret & _). vm_compute in Hret. discriminate.
Qed.

Lemma getUserMap_loop_returns env users :
  (forall t0 u, exists info, answer_users_info env t0 u = Returned info) ->
  forall userMap t, exists m t',
    getUserMap_loop env users userMap t = (Returned m, t').
Proof.
  intros Hok. induction users as [|u rest IH]; intros userMap t; simpl.
  - unfold ret. eauto.
  - unfold bind, app_client_users_info, emit.
    destruct (Hok t u) as [info ->]. apply IH.
Qed.

(** C9, amended.  When every [users.info] call returns, [getUserMap]
    returns a map with an entry for every identifier it was given
    (duplicates allowed), and an identifier all of whose lookups came back
    without a user or without a non-empty name is mapped to ["Unknown"]. *)
Theorem getUserMap_covers_users env users t :
  (forall t0 u, exists info, answer_users_info env t0 u = Returned info) ->
  exists usersMap evs,
    getUserMap env users t = (Returned usersMap, (t ++ evs)%list)
    /\ (forall u, In u users -> exists n, Map_get u usersMap = Some n)
    /\ (forall u, In u users ->
          (forall r, In (users_info u r) evs ->
             exists info, r = Returned info /\ JS.truthy (user_name info) = false) ->
          Map_get u usersMap = Some "Unknown").
Proof.
  intros Hok. unfold getUserMap.
  destruct (getUserMap_loop_returns env users Hok new_Map t) as (m & t' & Hloop).
  destruct (getUserMap_loop_returned env users new_Map t m t' Hloop)
    as (evs & -> & _ & Hdom & _ & Hunk).
  exists m, evs. rewrite Hloop. auto.
Qed.

(** ** The limit *)

(** *** What the matcher reports *)

Lemma append_cons c (s t : string) : String c s ++ t = String c (s ++ t).
Proof. reflexivity. Qed.

Lemma append_empty_l (t : string) : EmptyString ++ t = t.
Proof. reflexivity. Qed.

Lemma length_append_ge (pre s' : string) :
  (String.length (pre ++ s') = String.length pre + String.length s')%nat.
Proof.
  induction pre as [|c pre IH].
  - rewrite append_empty_l. reflexivity.
  - rewrite append_cons. simpl. rewrite IH. reflexivity.
Qed.

Lemma consumed_prefix pre s' : RegExp.consumed (pre ++ s') s' = pre.
Proof.
  unfold RegExp.consumed. rewrite length_append_ge.
  replace (String.length pre + String.length s' - String.length s')%nat
    with (String.length pre) by lia.
  induction pre as [|c pre IH].
  - rewrite append_empty_l. destruct s'; reflexivity.
  - rewrite append_cons. simpl. rewrite IH. reflexivity.
Qed.

(** A successful match of [p*] splits the input into code units of the class
    and a rest on which the continuation succeeds. *)
Lemma star_chr_split {R} p s caps (k : @RegExp.cont R) x :
  RegExp.star_chr p s caps k = Some x ->
  exists pre s', s = pre ++ s' /\ JS.every p pre = true /\ k s' caps = Some x.
Proof.
  induction s as [|c s IH]; simpl.
  - intros Hk. exists EmptyString, EmptyString. auto.
  - destruct (p c) eqn:Hc.
    + destruct (RegExp.star_chr p s caps k) as [y|] eqn:Hstar.
      * intros [= ->]. destruct (IH eq_refl) as (pre & s' & -> & Hpre & Hk).
        exists (String c pre), s'. simpl. rewrite Hc, Hpre. auto.
      * intros Hk. exists EmptyString, (String c s). auto.
    + intros Hk. exists EmptyString, (String c s). auto.
Qed.

(** Whatever a match returns, the continuation returned it. *)
Lemma rmatch_cont {R} r : forall s caps (k : @RegExp.cont R) x,
  RegExp.rmatch r s caps k = Some x ->
  exists s' caps', k s' caps' = Some x.
Proof.
  induction r as [lit|p|r1 IH1 r2 IH2|p|r1 IH1|n r1 IH1]; intros s caps k x; simpl.
  - destruct (String.prefix lit s); [eauto|discriminate].
  - destruct s as [|c s]; [discriminate|]. destruct (p c); [eauto|discriminate].
  - intros H. apply IH1 in H as (s1 & caps1 & H). eapply IH2, H.
  - intros H. apply star_chr_split in H as (pre & s' & _ & _ & H). eauto.
  - match goal with
    | |- context [RegExp.rmatch r1 s caps ?k1] =>
        destruct (RegExp.rmatch r1 s caps k1) as [y|] eqn:Hr1
    end.
    + intros [= ->]. apply IH1 in Hr1 as (s1 & caps1 & H).
      destruct (String.length s1 =? String.length s)%nat; [discriminate|eauto].
    + eauto.
  - intros H. apply IH1 in H as (s1 & caps1 & H). eauto.
Qed.

Lemma rmatch_seq {R} r1 r2 s caps (k : @RegExp.cont R) x :
  RegExp.rmatch (RegExp.Seq r1 r2) s caps k = Some x ->
  exists s' caps', RegExp.rmatch r2 s' caps' k = Some x.
Proof. simpl. intros H. apply rmatch_cont in H. exact H. Qed.

(** A match array comes from a match at some position of the text. *)
Lemma exec_rmatch r ngroups txt matches :
  RegExp.exec r ngroups txt = Some matches ->
  exists s m caps,
    RegExp.rmatch r s ∅ (fun s' caps => Some (RegExp.consumed s s', caps)) = Some (m, caps)
    /\ matches = Some m :: List.map (fun i => caps !! i) (List.seq 1 ngroups).
Proof.
  induction txt as [|c txt IH]; simpl.
  - destruct (RegExp.rmatch r EmptyString ∅ _) as [[m caps]|] eqn:Hm; [|discriminate].
    intros [= <-]. eauto.
  - destruct (RegExp.rmatch r (String c txt) ∅ _) as [[m caps]|] eqn:Hm.
    + intros [= <-]. eauto.
    + exact IH.
Qed.

(** Group 2 of the message pattern always takes part in a match and holds
    decimal digits only. *)
Lemma summarize_pattern_group2 txt matches :
  RegExp.exec summarize_pattern 2 txt = Some matches ->
  exists ds,
    matches_at matches 2 = Some ds /\ JS.every JS.is_decimal_digit ds = true.
Proof.
  intros Hexec. apply exec_rmatch in Hexec as (s & m & caps & Hm & ->).
  unfold summarize_pattern in Hm.
  apply rmatch_seq in Hm as (s1 & caps1 & Hm).
  apply rmatch_seq in Hm as (s2 & caps2 & Hm).
  apply rmatch_seq in Hm as (s3 & caps3 & Hm).
  apply rmatch_seq in Hm as (s4 & caps4 & Hm).
  simpl in Hm.
  apply star_chr_split in Hm as (ds & s5 & -> & Hds & Hk).
  injection Hk as _ <-.
  exists ds. split; [|exact Hds].
  unfold matches_at. simpl. rewrite consumed_prefix. apply lookup_insert_eq.
Qed.

(** *** [parseInt] on digits *)

Lemma decimal_digit_facts c :
  JS.is_decimal_digit c = true ->
  JS.is_white_space c = false
  /\ Ascii.eqb c "-"%char = false /\ Ascii.eqb c "+"%char = false
  /\ Ascii.eqb c "x"%char = false /\ Ascii.eqb c "X"%char = false.
Proof.
  destruct c as [[] [] [] [] [] [] [] []]; vm_compute; intros H;
    try discriminate H; repeat split.
Qed.

Lemma digit_value_nonneg c d : JS.digit_value c = Some d -> 0 <= d.
Proof.
  unfold JS.digit_value.
  repeat match goal with
         | |- context [if ?b then _ else _] => destruct b eqn:?
         end; intros [= <-]; lia.
Qed.

Lemma digits_nonneg R s : 0 <= R -> forall acc,
  (forall a, acc = Some a -> 0 <= a) ->
  forall v, JS.digits R s acc = Some v -> 0 <= v.
Proof.
  intros HR. induction s as [|c s IH]; intros acc Hacc v; simpl.
  - apply Hacc.
  - destruct (JS.digit_value c) as [d|] eqn:Hd; [|apply Hacc].
    destruct (d <? R); [|apply Hacc].
    apply IH. intros a [= <-]. apply digit_value_nonneg in Hd.
    destruct acc as [a0|]; [|exact Hd].
    specialize (Hacc a0 eq_refl). nia.
Qed.

(** The double nearest to an integer that is not negative is not negative
    either. *)
Lemma to_double_nonneg n :
  0 <= n ->
  (exists v, JS.to_double n = JS.Int v /\ 0 <= v) \/ JS.to_double n = JS.Infinity false.
Proof.
  intros Hn. unfold JS.to_double.
  destruct (Z.abs n <? 2 ^ 53); [left; eauto|].
  cbv zeta.
  match goal with
  | |- context [Z.shiftl ?q' ?e] => set (v := Z.shiftl q' e); assert (Hv : 0 <= v)
  end.
  { subst v. apply Z.shiftl_nonneg.
    assert (Hq : 0 <= Z.shiftr (Z.abs n) (Z.log2 (Z.abs n) - 52))
      by (apply Z.shiftr_nonneg; lia).
    destruct (_ || _); lia. }
  destruct (2 ^ 1024 <=? v).
  - right. f_equal. apply Z.ltb_ge, Hn.
  - left. eexists. split; [reflexivity|]. nia.
Qed.

(** On a text of decimal digits, [parseInt] gives [NaN], an integer that is
    not negative, or the positive infinity. *)
Lemma parseInt_digits ds :
  JS.every JS.is_decimal_digit ds = true ->
  JS.parseInt ds = JS.NaN
  \/ (exists v, JS.parseInt ds = JS.Int v /\ 0 <= v)
  \/ JS.parseInt ds = JS.Infinity false.
Proof.
  destruct ds as [|c r]; [left; reflexivity|].
  simpl. intros Hall. apply andb_prop in Hall as [Hc Hr].
  destruct (decimal_digit_facts c Hc) as (Hws & Hminus & Hplus & _).
  unfold JS.parseInt. simpl. rewrite Hws, Hminus, Hplus.
  assert (Hradix :
    (match r with
     | EmptyString => (10, String c r)
     | String x r' =>
         if Ascii.eqb c "0"%char && (Ascii.eqb x "x"%char || Ascii.eqb x "X"%char)
         then (16, r') else (10, String c r)
     end) = (10, String c r)).
  { destruct r as [|x r']; [reflexivity|].
    simpl in Hr. apply andb_prop in Hr as [Hx _].
    destruct (decimal_digit_facts x Hx) as (_ & _ & _ & -> & ->).
    rewrite Bool.andb_false_r. reflexivity. }
  rewrite Hradix.
  destruct (JS.digits 10 (String c r) None) as [v|] eqn:Hv; [|left; reflexivity].
  right. apply to_double_nonneg.
  assert (0 <= v) by (eapply digits_nonneg; [| |exact Hv]; [lia|discriminate]).
  lia.
Qed.

Lemma or_number_nonzero n d :
  d <> JS.NaN -> d <> JS.Int 0 ->
  JS.or_number n d <> JS.NaN /\ JS.or_number n d <> JS.Int 0.
Proof.
  intros Hnan Hzero. destruct n as [|z|neg]; simpl; [auto| |split; discriminate].
  destruct (z =? 0) eqn:Hz; [auto|]. apply Z.eqb_neq in Hz.
  split; [discriminate|]. intros [= ->]. contradiction.
Qed.

(** *** [split] at a separator that occurs *)

Lemma split_go_length sep s : forall skip cur,
  (1 <= List.length (JS.split_go sep skip cur s))%nat.
Proof.
  induction s as [|c s IH]; intros skip cur; cbn [JS.split_go].
  - cbn [List.length]. lia.
  - destruct skip; [|apply IH].
    destruct (String.prefix sep (String c s)); [cbn [List.length]; lia|apply IH].
Qed.

Lemma split_includes s c0 sep0 :
  JS.includes s (String c0 sep0) = true ->
  (2 <= List.length (JS.split s (String c0 sep0)))%nat.
Proof.
  unfold JS.split. generalize EmptyString as cur.
  induction s as [|c s IH]; intros cur.
  - simpl. discriminate.
  - cbn [JS.includes JS.split_go].
    destruct (String.prefix (String c0 sep0) (String c s)) eqn:Hpre.
    + intros _. cbn [List.length].
      pose proof (split_go_length (String c0 sep0) s
                    (Nat.pred (String.length (String c0 sep0))) EmptyString).
      lia.
    + simpl orb. apply IH.
Qed.

(** *** The limit that reaches the fetch *)

(** A run of [handleSummarizeRequest] always returns; it makes exactly one
    conversation call, with the limit it was given; and a [messages] array
    handed to the model starts with the system prompt and ends as
    [push_question] leaves it. *)
Lemma handleSummarizeRequest_spec env channelId question threadTs limit t :
  exists evs,
    handleSummarizeRequest env channelId question threadTs (Some limit) t
      = (Returned tt, (t ++ evs)%list)
    /\ List.map snd (fetches evs) = [limit]
    /\ (forall messages r,
          In (messages, r) (prompts evs) ->
          exists transcript,
            messages = systemPrompt question :: push_question question transcript).
Proof.
  rewrite handleSummarizeRequest_unfold.
  destruct (fetchRecentMessages_spec env channelId limit threadTs t)
    as (chats & fevs & Hfetch & _ & Hfc & Hff).
  rewrite Hfetch.
  destruct chats as [|c cs].
  - exists fevs. rewrite Hff, Hfc. simpl. repeat split; auto. intros ? ? [].
  - destruct (summarizeText_spec env (c :: cs) question (t ++ fevs)%list)
      as (summary & sevs & Hsum & _ & Hsf & Hsc).
    rewrite Hsum.
    destruct (postMessage_spec env channelId summary threadTs ((t ++ fevs) ++ sevs)%list)
      as (pevs & Hpost & _ & Hpc & Hpf).
    rewrite Hpost. exists (fevs ++ sevs ++ pevs)%list.
    rewrite !List.app_assoc. split; [reflexivity|].
    rewrite !fetches_app, !prompts_app, Hff, Hsf, Hpf, Hfc, Hpc, List.app_nil_r.
    split; [reflexivity|]. simpl.
    intros messages r Hin.
    destruct Hsc as [Hnone|(usersMap & tu & r0 & _ & Hone & _)].
    + rewrite Hnone in Hin. destruct Hin.
    + rewrite Hone in Hin. destruct Hin as [[= <- _]|[]]. eauto.
Qed.

(** The mention listener always obtains a question and a limit. *)
Lemma mention_request_spec prompt :
  exists question limit,
    mention_request prompt = Returned (question, limit)
    /\ (limit <> JS.NaN /\ limit <> JS.Int 0)
    /\ (JS.includes prompt "--limit" = false -> limit = JS.Int 10)
    /\ (forall part1,
          List.nth_error (JS.split prompt "--limit") 1 = Some part1 ->
          JS.parseInt (JS.trim part1) = JS.NaN -> limit = JS.Int 10).
Proof.
  unfold mention_request.
  destruct (JS.includes prompt "--limit") eqn:Hinc.
  - apply split_includes in Hinc.
    destruct (JS.split prompt "--limit") as [|part0 [|part1 rest]];
      cbn [List.length] in Hinc; try lia.
    cbn [List.nth_error].
    destruct (String.eqb (JS.trim part0) "summarize");
      (eexists; eexists; split; [reflexivity|];
       split; [apply or_number_nonzero; discriminate|];
       split; [discriminate|];
       intros p [= <-] Hnan; rewrite Hnan; reflexivity).
  - destruct (String.eqb (JS.trim prompt) "summarize");
      (eexists; eexists; split; [reflexivity|];
       split; [split; discriminate|]; split; reflexivity || (intros; reflexivity)).
Qed.

(** The limit of a mention may be negative: [--limit -5] reaches
    [conversations.history] as -5. *)
Lemma negative_limit_reaches_fetch :
  fetches
    (snd (app_mention sample_env
            {| text := "<@U07AF4DJWRH> summarize --limit -5"; user := "U1";
               channel := "C1"; thread_ts := None |} []))
  = [("C1", None, JS.Int (-5))]
  /\ ~ JS.positive (JS.Int (-5)).
Proof. split; [vm_compute; reflexivity|simpl; lia]. Qed.

(** C2, amended.  A mention that asks for neither help nor the version
    always yields a question and a limit, the one conversation call of the
    run is made with that limit, and the limit is neither [NaN] nor zero (it
    is an integer other than zero or an infinity, and may be negative); it is
    10 when the prompt has no [--limit], and when the text after [--limit]
    does not parse.  For a message that matches the pattern the limit is
    positive (an integer or the positive infinity), the conversation call is
    made with it, and it is 10 when the digits group does not parse (it is
    then empty). *)
Theorem effective_limit env event :
  (let prompt := JS.join (JS.slice1 (JS.split (text event) " ")) " " in
   JS.trim prompt <> "--help" -> JS.trim prompt <> "--version" ->
   exists question limit,
     mention_request prompt = Returned (question, limit)
     /\ List.map snd (fetches (snd (app_mention env event []))) = [limit]
     /\ (limit <> JS.NaN /\ limit <> JS.Int 0)
     /\ (JS.includes prompt "--limit" = false -> limit = JS.Int 10)
     /\ (forall part1,
           List.nth_error (JS.split prompt "--limit") 1 = Some part1 ->
           JS.parseInt (JS.trim part1) = JS.NaN -> limit = JS.Int 10))
  /\ (forall matches,
        RegExp.exec summarize_pattern 2 (text event) = Some matches ->
        List.map snd (fetches (snd (app_message env event [])))
        = [snd (message_request matches)]
        /\ JS.positive (snd (message_request matches))
        /\ (JS.parseInt_opt (matches_at matches 2) = JS.NaN ->
            snd (message_request matches) = JS.Int 10)).
Proof.
  split.
  - intros prompt Hhelp Hversion.
    destruct (mention_request_spec prompt)
      as (question & limit & Hreq & Hnz & Habsent & Hnan).
    exists question, limit. split; [exact Hreq|]. split; [|auto].
    unfold app_mention, try_catch, bind, say. simpl List.app. fold prompt.
    apply String.eqb_neq in Hhelp, Hversion. rewrite Hhelp, Hversion, Hreq.
    match goal with
    | |- context [handleSummarizeRequest env ?c ?q ?ts (Some ?l) ?t] =>
        destruct (handleSummarizeRequest_spec env c q ts l t) as (evs & -> & Hf & _)
    end.
    cbn [snd]. rewrite fetches_app. exact Hf.
  - intros matches Hexec.
    split; [|split].
    + unfold app_message. rewrite Hexec.
      unfold message_request, try_catch, bind, say. simpl List.app.
      match goal with
      | |- context [handleSummarizeRequest env ?c ?q ?ts (Some ?l) ?t] =>
          destruct (handleSummarizeRequest_spec env c q ts l t) as (evs & -> & Hf & _)
      end.
      cbn [snd]. rewrite fetches_app. exact Hf.
    + destruct (summarize_pattern_group2 _ _ Hexec) as (ds & Hds & Hall).
      unfold message_request. simpl snd. rewrite Hds. simpl JS.parseInt_opt.
      destruct (parseInt_digits ds Hall) as [-> | [(v & -> & Hv) | ->]]; simpl;
        [lia| |reflexivity].
      destruct (v =? 0) eqn:Hz; simpl; [lia|]. apply Z.eqb_neq in Hz. lia.
    + unfold message_request. simpl snd. intros ->. reflexivity.
Qed.

(** ** The question scenario *)

(** The question that the pattern captures keeps its quote characters. *)
Lemma question_text_keeps_quotes :
  exists matches,
    RegExp.exec summarize_pattern 2 question_trigger = Some matches
    /\ fst (message_request matches) = Some quoted_question
    /\ fst (message_request matches) <> Some "what was decided?".
Proof.
  eexists. split; [vm_compute; reflexivity|]. split; [reflexivity|].
  vm_compute. discriminate.
Qed.

(** C8, amended.  For the message [!summarize "what was decided?" 5] the
    pattern captures the question with its quote characters and the digit 5;
    the listener hands that question and the limit 5 to
    [handleSummarizeRequest]; the one conversation call of the run is made
    with limit 5; and every [messages] array handed to the model ends with
    the entry whose content is the marker [@#*&Question: ] followed by the
    quoted question. *)
Theorem question_trigger_scenario env message :
  text message = question_trigger ->
  RegExp.exec summarize_pattern 2 (text message)
  = Some [Some question_trigger; Some quoted_question; Some "5"]
  /\ message_request [Some question_trigger; Some quoted_question; Some "5"]
     = (Some quoted_question, JS.Int 5)
  /\ List.map snd (fetches (snd (app_message env message []))) = [JS.Int 5]
  /\ (forall messages r,
        In (messages, r) (prompts (snd (app_message env message []))) ->
        List.last messages (systemPrompt None)
        = {| Prompt.role := "user";
             Prompt.content := "@#*&Question: " ++ quoted_question;
             Prompt.user := Some "definetly not a bot" |}).
Proof.
  intros Htext.
  assert (Hexec : RegExp.exec summarize_pattern 2 (text message)
                  = Some [Some question_trigger; Some quoted_question; Some "5"])
    by (rewrite Htext; vm_compute; reflexivity).
  split; [exact Hexec|]. split; [vm_compute; reflexivity|].
  unfold app_message. rewrite Hexec.
  change (message_request [Some question_trigger; Some quoted_question; Some "5"])
    with (Some quoted_question, JS.Int 5).
  unfold try_catch, bind, say. simpl List.app.
  match goal with
  | |- context [handleSummarizeRequest env ?c ?q ?ts (Some ?l) ?t] =>
      destruct (handleSummarizeRequest_spec env c q ts l t) as (evs & -> & Hf & Hp)
  end.
  cbn [snd]. rewrite fetches_app, prompts_app. simpl List.app.
  split; [exact Hf|].
  intros messages r Hin. apply Hp in Hin as (transcript & ->).
  change (push_question (Some quoted_question) transcript)
    with (transcript
            ++ [ {| Prompt.role := "user";
                    Prompt.content := "@#*&Question: " ++ quoted_question;
                    Prompt.user := Some "definetly not a bot" |} ])%list.
  rewrite List.app_comm_cons. apply List.last_last.
Qed.

(** ** The theorems at work on the sample runs *)

Lemma empty_fetch_posts_nothing_witness :
  handleSummarizeRequest history_down_env "C1" None None None []
  = (Returned tt,
     [ conversations_history "C1" (JS.Int 10) (Threw (ApiError "channel_not_found"));
       console_error "Error fetching messages: Error: channel_not_found" ])
  /\ posts [ conversations_history "C1" (JS.Int 10) (Threw (ApiError "channel_not_found"));
             console_error "Error fetching messages: Error: channel_not_found" ] = []
  /\ prompts [ conversations_history "C1" (JS.Int 10) (Threw (ApiError "channel_not_found"));
               console_error "Error fetching messages: Error: channel_not_found" ] = [].
Proof.
  apply (empty_fetch_posts_nothing history_down_env "C1" None None None).
  reflexivity.
Defined.

Lemma model_failure_posts_fallback_witness :
  fst (handleSummarizeRequest model_down_env "C1" None None (Some (JS.Int 10)) []) = Returned tt
  /\ posts (snd (handleSummarizeRequest model_down_env "C1" None None (Some (JS.Int 10)) []))
     = [("C1", "Error summarizing text.", None)]
  /\ exists chats t1 t2,
       fetchRecentMessages model_down_env "C1" (Some (JS.Int 10)) None [] = (Returned chats, t1)
       /\ summarizeText model_down_env chats None t1
          = (Returned "Error summarizing text.", t2).
Proof.
  apply (model_failure_posts_fallback model_down_env "C1" None None (Some (JS.Int 10))
           "gpt-4o"
           (systemPrompt None :: snd (transcript_loop sample_usersMap sample_chats []))
           (1 # 2) (ApiError "429 quota exceeded")).
  vm_compute. do 4 right. left. reflexivity.
Defined.


Lemma command_messages_not_in_transcript_witness :
  exists chats t1 usersMap t2,
    fetchRecentMessages sample_env "C1" (Some (JS.Int 10)) None [] = (Returned chats, t1)
    /\ getUserMap sample_env (List.map user chats) t1 = (Returned usersMap, t2)
    /\ forall entry,
         In entry (snd (transcript_loop usersMap chats [])) ->
         exists chat,
           In chat chats
           /\ JS.startsWith (text chat) "!summarize" = false
           /\ entry = pushed_entry usersMap chat.
Proof.
  destruct (command_messages_not_in_transcript sample_env "C1" None None (Some (JS.Int 10))
              "gpt-4o"
              (systemPrompt None :: snd (transcript_loop sample_usersMap sample_chats []))
              (1 # 2) (Returned [Some "A summary."]))
    as (chats & t1 & usersMap & t2 & Hfetch & Hmap & _ & _ & Hentries).
  - vm_compute. do 4 right. left. reflexivity.
  - exists chats, t1, usersMap, t2. auto.
Defined.

Lemma transcript_entries_keep_text_witness :
  getUserMap sample_env (List.map user sample_chats) [] = (Returned sample_usersMap, sample_lookups)
  /\ fst (transcript_loop sample_usersMap sample_chats []) = sample_chats
  /\ List.map Prompt.content (snd (transcript_loop sample_usersMap sample_chats []))
     = ["alice: hi <@U2>"; "bob: hello"].
Proof.
  assert (Hmap : getUserMap sample_env (List.map user sample_chats) []
                 = (Returned sample_usersMap, sample_lookups)) by reflexivity.
  split; [exact Hmap|].
  destruct (transcript_entries_keep_text sample_env (List.map user sample_chats) []
              sample_usersMap sample_lookups sample_chats Hmap)
    as (_ & Hchats & Hentries).
  split; [exact Hchats|]. rewrite Hentries. reflexivity.
Defined.

Lemma rewrite_mentions_idempotent_witness :
  rewrite_mentions sample_usersMap (rewrite_mentions sample_usersMap "hi <@U2>")
  = rewrite_mentions sample_usersMap "hi <@U2>"
  /\ snd (transcript_loop sample_usersMap
            (fst (transcript_loop sample_usersMap sample_chats [])) [])
     = snd (transcript_loop sample_usersMap sample_chats []).
Proof.
  apply (rewrite_mentions_idempotent sample_env (List.map user sample_chats) []
           sample_usersMap sample_lookups).
  reflexivity.
Defined.

Lemma getUserMap_covers_users_witness :
  exists usersMap evs,
    getUserMap sample_env ["U1"; "U7"; "U1"] [] = (Returned usersMap, ([] ++ evs)%list)
    /\ (forall u, In u ["U1"; "U7"; "U1"] -> exists n, Map_get u usersMap = Some n)
    /\ (forall u, In u ["U1"; "U7"; "U1"] ->
          (forall r, In (users_info u r) evs ->
             exists info, r = Returned info /\ JS.truthy (user_name info) = false) ->
          Map_get u usersMap = Some "Unknown").
Proof.
  apply (getUserMap_covers_users sample_env ["U1"; "U7"; "U1"] []).
  intros t0 u. eexists. reflexivity.
Defined.

Lemma effective_limit_witness :
  (exists question,
     mention_request "summarize --limit many" = Returned (question, JS.Int 10)
     /\ List.map snd (fetches (snd (app_mention sample_env unparsable_limit_mention [])))
        = [JS.Int 10])
  /\ List.map snd (fetches (snd (app_message sample_env digits_message []))) = [JS.Int 7]
  /\ List.map snd (fetches (snd (app_message sample_env bare_message []))) = [JS.Int 10].
Proof.
  split; [|split].
  - destruct (effective_limit sample_env unparsable_limit_mention) as [Hmention _].
    destruct Hmention as (question & limit & Hreq & Hfetch & _ & _ & Hnan);
      [vm_compute; discriminate | vm_compute; discriminate |].
    assert (Hten : limit = JS.Int 10) by (apply (Hnan " many"); reflexivity).
    subst limit. exists question. split; [exact Hreq|exact Hfetch].
  - destruct (effective_limit sample_env digits_message) as [_ Hpattern].
    destruct (Hpattern [Some "!summarize 7"; None; Some "7"]) as (Hfetch & _ & _);
      [reflexivity|].
    exact Hfetch.
  - destruct (effective_limit sample_env bare_message) as [_ Hpattern].
    destruct (Hpattern [Some "!summarize"; None; Some EmptyString]) as (Hfetch & _ & Hnan);
      [reflexivity|].
    rewrite (Hnan eq_refl) in Hfetch. exact Hfetch.
Defined.

Lemma question_trigger_scenario_witness :
  List.map snd (fetches (snd (app_message sample_env question_message []))) = [JS.Int 5]
  /\ List.map (fun p => List.last (fst p) (systemPrompt None))
       (prompts (snd (app_message sample_env question_message [])))
     = [ {| Prompt.role := "user";
            Prompt.content := "@#*&Question: " ++ quoted_question;
            Prompt.user := Some "definetly not a bot" |} ].
Proof.
  destruct (question_trigger_scenario sample_env question_message)
    as (_ & _ & Hfetch & Hlast); [reflexivity|].
  split; [exact Hfetch|].
  assert (Hrun : prompts (snd (app_message sample_env question_message []))
                 = [(systemPrompt (Some quoted_question)
                       :: push_question (Some quoted_question)
                            (snd (transcript_loop sample_usersMap sample_chats [])),
                     Returned [Some "A summary."])])
    by (vm_compute; reflexivity).
  rewrite Hrun in *. cbn [List.map fst].
  rewrite (Hlast _ (Returned [Some "A summary."]) (or_introl eq_refl)).
  reflexivity.
Defined.

(** ** Small checks of the JavaScript primitives *)

Example split_at_limit :
  JS.split "summarize --limit 20" "--limit" = ["summarize "; " 20"].
Proof. reflexivity. Qed.

Example parseInt_cases :
  JS.parseInt " 20" = JS.Int 20 /\ JS.parseInt "-5" = JS.Int (-5)
  /\ JS.parseInt "0x1f" = JS.Int 31 /\ JS.parseInt "many" = JS.NaN
  /\ JS.parseInt "12px" = JS.Int 12 /\ JS.parseInt EmptyString = JS.NaN.
Proof. repeat split; reflexivity. Qed.

Example replace_first_occurrence :
  JS.replace "hi <@U1> and <@U1>" "<@U1>" "bob$&" = "hi bob<@U1> and <@U1>".
Proof. reflexivity. Qed.

Example trim_both_ends : JS.trim "  --help  " = "--help".
Proof. reflexivity. Qed.

Example pattern_without_question :
  RegExp.exec summarize_pattern 2 "hello !summarize   42abc"
  = Some [Some "!summarize   42"; None; Some "42"].
Proof. vm_compute. reflexivity. Qed.

Example mention_limit_only :
  mention_request "--limit 20" = Returned (Some EmptyString, JS.Int 20).
Proof. reflexivity. Qed.

(** * Further properties of the code *)

(** ** Splitting and cutting *)

Lemma append_empty_r (s : string) : s ++ EmptyString = s.
Proof.
  induction s as [|c s IH]; [reflexivity|].
  rewrite append_cons, IH. reflexivity.
Qed.

Lemma append_assoc3 (a b c : string) : (a ++ b) ++ c = a ++ (b ++ c).
Proof.
  induction a as [|x a IH]; [reflexivity|].
  rewrite !append_cons, IH. reflexivity.
Qed.

Lemma prefix_cons a p b s :
  String.prefix (String a p) (String b s)
  = if Ascii.eqb a b then String.prefix p s else false.
Proof.
  simpl. destruct (ascii_dec a b) as [->|Hne].
  - rewrite Ascii.eqb_refl. reflexivity.
  - apply Ascii.eqb_neq in Hne. rewrite Hne. reflexivity.
Qed.

(** A prefix can be split off. *)
Lemma prefix_drop p : forall s,
  String.prefix p s = true -> s = p ++ JS.drop (String.length p) s.
Proof.
  induction p as [|a p IH]; intros s; [reflexivity|].
  destruct s as [|b s]; [discriminate|].
  rewrite prefix_cons. destruct (Ascii.eqb a b) eqn:Hab; [|discriminate].
  apply Ascii.eqb_eq in Hab as ->. intros Hp.
  rewrite append_cons. cbn [String.length JS.drop]. f_equal. apply IH, Hp.
Qed.

(** [cut] finds an occurrence: the text is what is before it, the pattern,
    and what is after it. *)
Lemma cut_spec pat : forall s b a,
  JS.cut s pat = Some (b, a) -> s = b ++ pat ++ a.
Proof.
  induction s as [|c s IH]; intros b a; cbn [JS.cut].
  - destruct (String.prefix pat EmptyString) eqn:Hp; [|discriminate].
    intros [= <- <-]. rewrite append_empty_l. apply prefix_drop, Hp.
  - destruct (String.prefix pat (String c s)) eqn:Hp.
    + intros [= <- <-]. rewrite append_empty_l. apply prefix_drop, Hp.
    + destruct (JS.cut s pat) as [[b' a']|] eqn:Hcut; [|discriminate].
      intros [= <- <-]. rewrite append_cons. f_equal. apply IH. reflexivity.
Qed.

(** [includes] holds exactly when [cut] finds an occurrence. *)
Lemma includes_cut pat : forall s,
  JS.includes s pat = match JS.cut s pat with Some _ => true | None => false end.
Proof.
  induction s as [|c s IH]; cbn [JS.includes JS.cut].
  - destruct (String.prefix pat EmptyString); reflexivity.
  - destruct (String.prefix pat (String c s)); [reflexivity|].
    rewrite IH. cbn [orb]. destruct (JS.cut s pat) as [[b a]|]; reflexivity.
Qed.

Lemma split_go_skip sep x : forall rest cur,
  JS.split_go sep (String.length x) cur (x ++ rest) = JS.split_go sep O cur rest.
Proof.
  induction x as [|c x IH]; intros rest cur.
  - rewrite append_empty_l. reflexivity.
  - rewrite append_cons. cbn [String.length JS.split_go]. apply IH.
Qed.

(** [split] cuts at the first occurrence of the separator and goes on with
    what follows it. *)
Lemma split_go_cut c0 sep0 : forall s cur,
  JS.split_go (String c0 sep0) O cur s
  = match JS.cut s (String c0 sep0) with
    | Some (b, a) => (cur ++ b) :: JS.split_go (String c0 sep0) O EmptyString a
    | None => [cur ++ s]
    end.
Proof.
  induction s as [|c s IH]; intros cur.
  - cbn [JS.split_go JS.cut]. simpl String.prefix. rewrite append_empty_r. reflexivity.
  - cbn [JS.split_go JS.cut].
    destruct (String.prefix (String c0 sep0) (String c s)) eqn:Hp.
    + rewrite append_empty_r. f_equal.
      pose proof (prefix_drop _ _ Hp) as Hs.
      rewrite append_cons in Hs. injection Hs as _ Hs.
      cbn [String.length JS.drop] in *. cbn [Nat.pred].
      rewrite Hs at 1. apply split_go_skip.
    + rewrite IH. destruct (JS.cut s (String c0 sep0)) as [[b a]|].
      * rewrite append_assoc3, append_cons, append_empty_l. reflexivity.
      * rewrite append_assoc3, append_cons, append_empty_l. reflexivity.
Qed.

Lemma split_cut s c0 sep0 :
  JS.split s (String c0 sep0)
  = match JS.cut s (String c0 sep0) with
    | Some (b, a) => b :: JS.split a (String c0 sep0)
    | None => [s]
    end.
Proof.
  unfold JS.split. rewrite split_go_cut.
  destruct (JS.cut s (String c0 sep0)) as [[b a]|]; rewrite append_empty_l; reflexivity.
Qed.

Lemma cut_shorter pat s b a :
  JS.cut s pat = Some (b, a) -> (String.length a <= String.length s)%nat.
Proof.
  intros Hcut. apply cut_spec in Hcut as ->.
  rewrite !length_append_ge. lia.
Qed.

(** Joining the pieces of a split with the separator gives the text back. *)
Lemma join_split c0 sep0 s :
  JS.join (JS.split s (String c0 sep0)) (String c0 sep0) = s.
Proof.
  remember (String.length s) as n eqn:Hn.
  assert (Hle : (String.length s <= n)%nat) by lia. clear Hn.
  revert s Hle. induction n as [|n IH]; intros s Hle.
  - destruct s; [reflexivity|simpl in Hle; lia].
  - rewrite split_cut.
    destruct (JS.cut s (String c0 sep0)) as [[b a]|] eqn:Hcut; [|reflexivity].
    pose proof (cut_spec _ _ _ _ Hcut) as Hs.
    assert (Ha : (String.length a <= n)%nat).
    { rewrite Hs, !length_append_ge in Hle. simpl in Hle. lia. }
    specialize (IH a Ha).
    pose proof (split_go_length (String c0 sep0) a O EmptyString) as Hlen.
    unfold JS.split in *.
    destruct (JS.split_go (String c0 sep0) O EmptyString a) as [|x rest];
      [cbn [List.length] in Hlen; lia|].
    cbn [JS.join] in *. rewrite IH. symmetry. exact Hs.
Qed.

(** X1.  The prompt of a mention (line 218) is the text after its first
    space, and empty when the text has no space. *)
Theorem mention_prompt_after_first_space txt :
  JS.join (JS.slice1 (JS.split txt " ")) " "
  = match JS.cut txt " " with
    | Some (_, after) => after
    | None => EmptyString
    end.
Proof.
  rewrite split_cut.
  destruct (JS.cut txt " ") as [[b a]|]; [|reflexivity].
  unfold JS.slice1. cbn [List.tl]. apply join_split.
Qed.

(** X2.  The question and the limit of a mention (lines 237-247), read off the
    occurrences of [--limit]: without one, the question is the prompt and
    the limit is 10; with one, the question is the text before the first
    occurrence and the limit is parsed from the text between the first and
    the second occurrence (up to the end when there is no second), whatever
    follows being ignored.  In both cases a question that trims to
    [summarize] is no question. *)
Theorem mention_request_by_occurrence prompt :
  mention_request prompt
  = match JS.cut prompt "--limit" with
    | None =>
        Returned (if String.eqb (JS.trim prompt) "summarize" then None else Some prompt,
                  JS.Int 10)
    | Some (before, after) =>
        let arg :=
          match JS.cut after "--limit" with
          | Some (between, _) => between
          | None => after
          end in
        Returned (if String.eqb (JS.trim before) "summarize" then None else Some before,
                  JS.or_number (JS.parseInt (JS.trim arg)) (JS.Int 10))
    end.
Proof.
  unfold mention_request. rewrite includes_cut, split_cut.
  destruct (JS.cut prompt "--limit") as [[before after]|].
  - rewrite split_cut.
    destruct (JS.cut after "--limit") as [[between rest]|]; cbn [List.nth_error];
      destruct (String.eqb (JS.trim before) "summarize"); reflexivity.
  - destruct (String.eqb (JS.trim prompt) "summarize"); reflexivity.
Qed.

(** ** The message pattern *)

Lemma star_chr_never_fails {R} p s caps (k : @RegExp.cont R) :
  (forall s', k s' caps <> None) -> RegExp.star_chr p s caps k <> None.
Proof.
  intros Hk. induction s as [|c s IH]; simpl; [apply Hk|].
  destruct (p c); [|apply Hk].
  destruct (RegExp.star_chr p s caps k); [discriminate|apply Hk].
Qed.

Lemma rmatch_never_fails {R} r :
  never_fails r = true ->
  forall s caps (k : @RegExp.cont R),
    (forall s' caps', k s' caps' <> None) -> RegExp.rmatch r s caps k <> None.
Proof.
  induction r as [lit|p|r1 IH1 r2 IH2|p|r1 IH1|n r1 IH1]; simpl; intros Hr s caps k Hk;
    try discriminate.
  - apply andb_prop in Hr as [H1 H2]. apply IH1; [exact H1|].
    intros s' caps'. apply IH2; [exact H2|exact Hk].
  - apply star_chr_never_fails. intros s'. apply Hk.
  - match goal with
    | |- match ?m with _ => _ end <> None => destruct m; [discriminate|apply Hk]
    end.
  - apply IH1; [exact Hr|]. intros s' caps'. apply Hk.
Qed.

(** At one position, the pattern matches exactly when the text there starts
    with [!summarize]. *)
Lemma summarize_pattern_here {R} s (k : @RegExp.cont R) :
  (forall s' caps', k s' caps' <> None) ->
  (RegExp.rmatch summarize_pattern s ∅ k = None
   <-> String.prefix "!summarize" s = false).
Proof.
  intros Hk. unfold summarize_pattern.
  match goal with
  | |- RegExp.rmatch (RegExp.Seq (RegExp.Str ?lit) ?tail) s ∅ k = None <-> _ =>
      change (RegExp.rmatch (RegExp.Seq (RegExp.Str lit) tail) s ∅ k)
        with (if String.prefix lit s
              then RegExp.rmatch tail (JS.drop (String.length lit) s) ∅ k
              else None);
      pose proof (rmatch_never_fails tail eq_refl
                    (JS.drop (String.length lit) s) ∅ k Hk) as Htail
  end.
  destruct (String.prefix "!summarize" s); split; intros H;
    try reflexivity; try discriminate; contradiction.
Qed.

(** The pattern matches somewhere in a text exactly when the text contains
    [!summarize]: it never fails on what follows the command word. *)
Lemma exec_none_iff_no_command txt :
  RegExp.exec summarize_pattern 2 txt = None
  <-> JS.includes txt "!summarize" = false.
Proof.
  induction txt as [|c txt IH]; cbn [RegExp.exec JS.includes].
  - pose proof (summarize_pattern_here EmptyString
                  (fun s' caps => Some (RegExp.consumed EmptyString s', caps))) as Hhere.
    destruct (RegExp.rmatch summarize_pattern EmptyString ∅ _) as [[m caps]|] eqn:Hm.
    + split; [discriminate|]. intros Hinc.
      apply orb_false_elim in Hinc as [Hp _].
      apply Hhere in Hp; [discriminate|discriminate].
    + split; [|reflexivity]. intros _.
      rewrite (proj1 (Hhere ltac:(discriminate)) eq_refl). reflexivity.
  - pose proof (summarize_pattern_here (String c txt)
                  (fun s' caps => Some (RegExp.consumed (String c txt) s', caps))) as Hhere.
    destruct (RegExp.rmatch summarize_pattern (String c txt) ∅ _) as [[m caps]|] eqn:Hm.
    + split; [discriminate|]. intros Hinc.
      apply orb_false_elim in Hinc as [Hp _].
      apply Hhere in Hp; [discriminate|discriminate].
    + rewrite (proj1 (Hhere ltac:(discriminate)) eq_refl). cbn [orb]. exact IH.
Qed.

Lemma rmatch_chr {R} p s caps (k : @RegExp.cont R) x :
  RegExp.rmatch (RegExp.Chr p) s caps k = Some x ->
  exists c s', s = String c s' /\ p c = true /\ k s' caps = Some x.
Proof.
  simpl. destruct s as [|c s']; [discriminate|].
  destruct (p c) eqn:Hp; [|discriminate]. eauto.
Qed.

(** What follows the optional question in the pattern leaves group 1 as it
    found it. *)
Lemma pattern_tail_keeps_group1 s0 s caps m caps' :
  RegExp.rmatch
    (RegExp.Seq (RegExp.StarChr JS.is_white_space)
       (RegExp.Group 2 (RegExp.StarChr JS.is_decimal_digit)))
    s caps (fun s' c => Some (RegExp.consumed s0 s', c)) = Some (m, caps') ->
  caps' !! 1%nat = caps !! 1%nat.
Proof.
  simpl. intros H.
  apply star_chr_split in H as (ws & s1 & _ & _ & H).
  apply star_chr_split in H as (ds & s2 & _ & _ & H).
  injection H as _ <-. apply lookup_insert_ne. discriminate.
Qed.

Lemma rmatch_seq_eq {R} r1 r2 s caps (k : @RegExp.cont R) :
  RegExp.rmatch (RegExp.Seq r1 r2) s caps k
  = RegExp.rmatch r1 s caps (fun s' caps' => RegExp.rmatch r2 s' caps' k).
Proof. reflexivity. Qed.

Lemma rmatch_str_eq {R} lit s caps (k : @RegExp.cont R) :
  RegExp.rmatch (RegExp.Str lit) s caps k
  = if String.prefix lit s then k (JS.drop (String.length lit) s) caps else None.
Proof. reflexivity. Qed.

Lemma rmatch_star_eq {R} p s caps (k : @RegExp.cont R) :
  RegExp.rmatch (RegExp.StarChr p) s caps k = RegExp.star_chr p s caps k.
Proof. reflexivity. Qed.

Lemma rmatch_opt_eq {R} r s caps (k : @RegExp.cont R) :
  RegExp.rmatch (RegExp.Opt r) s caps k
  = match RegExp.rmatch r s caps
            (fun s' caps' =>
               if (String.length s' =? String.length s)%nat then None else k s' caps')
    with
    | Some x => Some x
    | None => k s caps
    end.
Proof. reflexivity. Qed.

Lemma rmatch_group_eq {R} n r s caps (k : @RegExp.cont R) :
  RegExp.rmatch (RegExp.Group n r) s caps k
  = RegExp.rmatch r s caps (fun s' caps' => k s' (<[n := RegExp.consumed s s']> caps')).
Proof. reflexivity. Qed.

(** X4.  Whenever the pattern captures a question (group 1), the captured
    text starts and ends with a double quote and has no line break between
    them: the question handed to [handleSummarizeRequest] always carries its
    quotes, and is never the empty text. *)
Theorem captured_question_is_quoted txt matches question :
  RegExp.exec summarize_pattern 2 txt = Some matches ->
  matches_at matches 1 = Some question ->
  exists body,
    question = String JS.dquote (body ++ String JS.dquote EmptyString)
    /\ JS.every (fun c => negb (JS.is_line_terminator c)) body = true
    /\ JS.truthy (Some question) = true.
Proof.
  intros Hexec Hq. apply exec_rmatch in Hexec as (s & m & caps & Hm & ->).
  unfold matches_at in Hq. cbn [List.seq List.map List.nth] in Hq.
  unfold summarize_pattern in Hm.
  rewrite rmatch_seq_eq, rmatch_str_eq in Hm.
  destruct (String.prefix "!summarize" s); [|discriminate].
  rewrite rmatch_seq_eq, rmatch_star_eq in Hm.
  apply star_chr_split in Hm as (ws & s2 & _ & _ & Hm).
  rewrite rmatch_seq_eq, rmatch_opt_eq in Hm.
  match type of Hm with
  | match ?inner with _ => _ end = _ => destruct inner as [y|] eqn:Hgroup
  end.
  - injection Hm as ->.
    rewrite rmatch_group_eq, rmatch_seq_eq in Hgroup.
    apply rmatch_chr in Hgroup as (c1 & s3 & -> & Hc1 & Hgroup).
    rewrite rmatch_seq_eq, rmatch_star_eq in Hgroup.
    apply star_chr_split in Hgroup as (body & s4 & -> & Hbody & Hgroup).
    apply rmatch_chr in Hgroup as (c2 & s5 & -> & Hc2 & Hgroup).
    match type of Hgroup with
    | (if ?b then _ else _) = _ => destruct b; [discriminate|]
    end.
    apply pattern_tail_keeps_group1 in Hgroup.
    rewrite Hgroup, lookup_insert_eq in Hq. injection Hq as <-.
    apply Ascii.eqb_eq in Hc1 as <-, Hc2 as <-.
    exists body.
    replace (String JS.dquote (body ++ String JS.dquote s5))
      with ((String JS.dquote (body ++ String JS.dquote EmptyString)) ++ s5).
    + rewrite consumed_prefix. auto.
    + rewrite append_cons, append_assoc3, append_cons, append_empty_l. reflexivity.
  - apply pattern_tail_keeps_group1 in Hm. rewrite Hm, lookup_empty in Hq. discriminate.
Qed.

(** ** The traces of the functions, event by event *)

Lemma lookups_app (t1 t2 : trace) : lookups (t1 ++ t2)%list = (lookups t1 ++ lookups t2)%list.
Proof. apply List.flat_map_app. Qed.

Lemma failed_lookups_app (t1 t2 : trace) :
  failed_lookups (t1 ++ t2)%list = (failed_lookups t1 ++ failed_lookups t2)%list.
Proof. apply List.flat_map_app. Qed.

Lemma console_errors_app (t1 t2 : trace) :
  console_errors (t1 ++ t2)%list = (console_errors t1 ++ console_errors t2)%list.
Proof. apply List.flat_map_app. Qed.

Lemma stages_app (t1 t2 : trace) : stages (t1 ++ t2)%list = (stages t1 ++ stages t2)%list.
Proof. apply List.flat_map_app. Qed.

(** [fetchRecentMessages]: one conversation call, chosen by the thread; the
    [messages] of the answer as they are, or the empty array when there are
    none or the call threw, in which case the error is logged. *)
Lemma fetchRecentMessages_eq env channelId limit threadTs t :
  fetchRecentMessages env channelId (Some limit) threadTs t
  = let r := conversation_answer env t channelId threadTs limit in
    (Returned (match r with Returned (Some messages) => messages | _ => [] end),
     (t ++ conversation_event channelId threadTs limit r
          :: match r with
             | Threw e => [console_error ("Error fetching messages: " ++ error_to_string e)]
             | Returned _ => []
             end)%list).
Proof.
  unfold fetchRecentMessages, try_catch, bind, ret, say, conversation_answer,
    conversation_event.
  destruct threadTs as [[|c s]|]; simpl;
    unfold app_client_conversations_history, app_client_conversations_replies, emit;
    match goal with
    | |- context [answer_history ?e ?t ?c ?l] => destruct (answer_history e t c l) as [[ms|]|err]
    | |- context [answer_replies ?e ?t ?c ?s ?l] => destruct (answer_replies e t c s l) as [[ms|]|err]
    end; rewrite <- ?List.app_assoc; reflexivity.
Qed.

(** [postMessage]: one [chat.postMessage] call; when it throws, the error is
    logged and nothing else happens. *)
Lemma postMessage_eq env channelId txt threadTs t :
  postMessage env channelId txt threadTs t
  = let r := answer_postMessage env t channelId txt threadTs in
    (Returned tt,
     (t ++ chat_postMessage channelId txt threadTs r
          :: match r with
             | Threw e => [console_error ("Error posting message: " ++ error_to_string e)]
             | Returned _ => []
             end)%list).
Proof.
  unfold postMessage, try_catch, app_client_chat_postMessage, emit, say.
  destruct (answer_postMessage env t channelId txt threadTs) as [[]|e];
    rewrite <- ?List.app_assoc; reflexivity.
Qed.

(** The loop of [getUserMap] looks the identifiers up one by one, in order,
    and stops at the first call that throws. *)
Lemma getUserMap_loop_lookups env users : forall userMap t,
  exists r evs,
    getUserMap_loop env users userMap t = (r, (t ++ evs)%list)
    /\ stages evs = List.repeat 1%nat (List.length (lookups evs))
    /\ console_errors evs = []
    /\ (posts evs = [] /\ prompts evs = [] /\ fetches evs = [])
    /\ match r with
       | Returned _ => lookups evs = users /\ failed_lookups evs = []
       | Threw e =>
           exists before u after,
             users = (before ++ u :: after)%list
             /\ lookups evs = (before ++ [u])%list
             /\ failed_lookups evs = [u]
             /\ List.last evs (console_error EmptyString) = users_info u (Threw e)
       end.
Proof.
  induction users as [|u rest IH]; intros userMap t; simpl.
  - exists (Returned userMap), []. rewrite List.app_nil_r. auto 10.
  - unfold bind, app_client_users_info, emit.
    destruct (answer_users_info env t u) as [info|e] eqn:Hans.
    + destruct (IH (Map_set u (JS.or_string (user_name info) "Unknown") userMap)
                  (t ++ [users_info u (Returned info)])%list)
        as (r & evs & Heq & Hst & Hce & Hnone & Hr).
      exists r, (users_info u (Returned info) :: evs).
      rewrite Heq, <- List.app_assoc.
      split; [reflexivity|].
      split; [cbn [stages lookups List.flat_map List.app List.length List.repeat];
              fold (stages evs); fold (lookups evs); rewrite Hst; reflexivity|].
      split; [exact Hce|]. split; [exact Hnone|].
      destruct r as [m|e].
      * destruct Hr as [Hl Hf]. split; [simpl; fold (lookups evs); rewrite Hl; reflexivity|].
        exact Hf.
      * destruct Hr as (before & u' & after & -> & Hl & Hf & Hlast).
        exists (u :: before), u', after.
        split; [reflexivity|].
        split; [simpl; fold (lookups evs); rewrite Hl; reflexivity|].
        split; [exact Hf|].
        destruct evs as [|ev evs']; [destruct before; discriminate|].
        exact Hlast.
    + exists (Threw e), [users_info u (Threw e)].
      split; [reflexivity|]. split; [reflexivity|]. split; [reflexivity|].
      split; [auto|]. exists [], u, rest. auto.
Qed.

(** [summarizeText] after the lookups: the model call with the prompt, and
    what becomes of its answer. *)
Lemma summarizeText_eq env chats question t :
  summarizeText env chats question t
  = match getUserMap env (List.map user chats) t with
    | (Threw e, t1) =>
        (Returned "Error summarizing text.",
         (t1 ++ [console_error ("Error summarizing text: " ++ error_to_string e)])%list)
    | (Returned usersMap, t1) =>
        let messages :=
          systemPrompt question
            :: push_question question (snd (transcript_loop usersMap chats [])) in
        let r := answer_completion env t1 "gpt-4o" messages (1 # 2) in
        let call := chat_completions_create "gpt-4o" messages (1 # 2) r in
        match r with
        | Returned (content0 :: _) =>
            (Returned (JS.or_string content0 "No summary found."), (t1 ++ [call])%list)
        | Returned [] =>
            (Returned "Error summarizing text.",
             (t1 ++ [call;
                     console_error
                       ("Error summarizing text: "
                          ++ error_to_string
                               (TypeError "Cannot read properties of undefined (reading 'message')"))])%list)
        | Threw e =>
            (Returned "Error summarizing text.",
             (t1 ++ [call;
                     console_error ("Error summarizing text: " ++ error_to_string e)])%list)
        end
    end.
Proof.
  unfold summarizeText, try_catch, bind.
  destruct (getUserMap env (List.map user chats) t) as [[usersMap|e] t1]; [|reflexivity].
  unfold openai_chat_completions_create, emit. cbv zeta.
  match goal with
  | |- context [answer_completion ?e ?t ?m ?ms ?q] =>
      destruct (answer_completion e t m ms q) as [[|content0 rest]|err]
  end; unfold throw, ret, say; rewrite <- ?List.app_assoc; reflexivity.
Qed.

Lemma or_string_not_empty x d : d <> EmptyString -> JS.or_string x d <> EmptyString.
Proof. intros Hd. destruct x as [[|c s]|]; simpl; [exact Hd|discriminate|exact Hd]. Qed.

Lemma getUserMap_loop_values env users : forall userMap t m t',
  (forall u n, Map_get u userMap = Some n -> n <> EmptyString) ->
  getUserMap_loop env users userMap t = (Returned m, t') ->
  forall u n, Map_get u m = Some n -> n <> EmptyString.
Proof.
  induction users as [|u0 rest IH]; intros userMap t m t' Hinv; simpl.
  - unfold ret. intros [= <- <-]. exact Hinv.
  - unfold bind, app_client_users_info, emit.
    destruct (answer_users_info env t u0) as [info|e]; [|discriminate].
    apply IH. intros u n. unfold Map_get, Map_set. simpl.
    destruct (decide (u0 = u)) as [->|Hne].
    + rewrite lookup_insert_eq. intros [= <-]. apply or_string_not_empty. discriminate.
    + rewrite lookup_insert_ne by exact Hne. apply Hinv.
Qed.

(** ** The user map, continued *)

(** X5.  [getUserMap] makes one [users.info] call for each element of the
    array it is given, in order and duplicates included, as long as the calls
    return; it makes no other call.  The first call that throws is the last
    one made, and its error is what [getUserMap] throws. *)
Theorem getUserMap_one_lookup_per_element env users t :
  exists r evs,
    getUserMap env users t = (r, (t ++ evs)%list)
    /\ (posts evs = [] /\ prompts evs = [] /\ fetches evs = [])
    /\ match r with
       | Returned _ => lookups evs = users /\ failed_lookups evs = []
       | Threw e =>
           exists before u after,
             users = (before ++ u :: after)%list
             /\ lookups evs = (before ++ [u])%list
             /\ failed_lookups evs = [u]
             /\ List.last evs (console_error EmptyString) = users_info u (Threw e)
       end.
Proof.
  unfold getUserMap.
  destruct (getUserMap_loop_lookups env users new_Map t)
    as (r & evs & Heq & _ & _ & Hnone & Hr).
  exists r, evs. auto.
Qed.

(** X6.  The map that [getUserMap] returns has an entry exactly for the
    identifiers it was given, and no entry is the empty text; so the
    fallback of line 137 never applies to an author that was looked up. *)
Theorem getUserMap_domain_and_names env users t usersMap t' :
  getUserMap env users t = (Returned usersMap, t') ->
  (forall u, In u users <-> exists n, Map_get u usersMap = Some n)
  /\ (forall u n, Map_get u usersMap = Some n -> n <> EmptyString)
  /\ (forall u, In u users ->
        Map_get u usersMap = Some (JS.or_string (Map_get u usersMap) "Unknown")).
Proof.
  unfold getUserMap. intros Hloop.
  pose proof (getUserMap_loop_values env users new_Map t usersMap t') as Hvalues.
  specialize (Hvalues ltac:(intros u n; unfold Map_get; simpl; rewrite lookup_empty; discriminate)
                      Hloop).
  destruct (getUserMap_loop_returned env users new_Map t usersMap t' Hloop)
    as (evs & _ & _ & Hdom & Hframe & _).
  split; [|split].
  - intros u. split; [apply Hdom|].
    intros [n Hn]. destruct (List.in_dec string_dec u users) as [Hin|Hnot]; [exact Hin|].
    rewrite (Hframe u Hnot) in Hn. unfold Map_get in Hn. simpl in Hn.
    rewrite lookup_empty in Hn. discriminate.
  - exact Hvalues.
  - intros u Hin. destruct (Hdom u Hin) as [n Hn]. rewrite Hn.
    specialize (Hvalues u n Hn). destruct n; [contradiction|reflexivity].
Qed.

(** ** [summarizeText], continued *)

(** X7.  [summarizeText] never throws and never returns the empty text.  It
    calls the model at most once.  Either nothing was caught, or exactly one
    error was logged and the result is ["Error summarizing text."]: this
    covers a lookup that throws, a model call that throws and an answer
    without choices. *)
Theorem summarizeText_never_throws env chats question t :
  exists summary evs,
    summarizeText env chats question t = (Returned summary, (t ++ evs)%list)
    /\ summary <> EmptyString
    /\ (List.length (prompts evs) <= 1)%nat
    /\ (console_errors evs = []
        \/ (summary = "Error summarizing text."
            /\ exists e,
                 console_errors evs
                 = ["Error summarizing text: " ++ error_to_string e])).
Proof.
  rewrite summarizeText_eq. unfold getUserMap.
  destruct (getUserMap_loop_lookups env (List.map user chats) new_Map t)
    as (ru & uevs & -> & _ & Hce & (_ & Hpr & _) & _).
  destruct ru as [usersMap|e].
  - cbv zeta.
    match goal with
    | |- context [answer_completion ?e ?t ?m ?ms ?q] =>
        destruct (answer_completion e t m ms q) as [[|content0 rest]|err]
    end;
      (eexists; eexists; split; [rewrite <- List.app_assoc; reflexivity|];
       rewrite !prompts_app, !console_errors_app, Hpr, Hce;
       split; [try discriminate; apply or_string_not_empty; discriminate|];
       split; [simpl; lia|]; simpl;
       first
         [ left; reflexivity
         | right; split; [reflexivity|];
           first
             [ exists (TypeError "Cannot read properties of undefined (reading 'message')");
               reflexivity
             | eexists; reflexivity ] ]).
  - eexists; eexists; split; [rewrite <- List.app_assoc; reflexivity|].
    rewrite !prompts_app, !console_errors_app, Hpr, Hce.
    split; [discriminate|]. split; [simpl; lia|]. simpl. eauto.
Qed.

(** ** One run of the pipeline, observed *)

Lemma conversation_event_observed channelId threadTs limit r :
  fetches [conversation_event channelId threadTs limit r]
  = [(channelId, if JS.truthy threadTs then threadTs else None, limit)]
  /\ stages [conversation_event channelId threadTs limit r] = [0%nat]
  /\ posts [conversation_event channelId threadTs limit r] = []
  /\ prompts [conversation_event channelId threadTs limit r] = []
  /\ lookups [conversation_event channelId threadTs limit r] = []
  /\ failed_lookups [conversation_event channelId threadTs limit r] = []
  /\ console_errors [conversation_event channelId threadTs limit r] = [].
Proof. destruct threadTs as [[|c s]|]; repeat split; reflexivity. Qed.

(** Everything the later theorems need to know about one call of
    [summarizeText]. *)
Lemma summarizeText_run env chats question t :
  exists summary evs,
    summarizeText env chats question t = (Returned summary, (t ++ evs)%list)
    /\ summary <> EmptyString
    /\ posts evs = [] /\ fetches evs = []
    /\ (exists n, (n <= List.length chats)%nat
          /\ lookups evs = List.firstn n (List.map user chats)
          /\ stages evs
             = (List.repeat 1%nat n ++ List.repeat 2%nat (List.length (prompts evs)))%list)
    /\ (List.length (prompts evs) <= 1)%nat
    /\ (failed_lookups evs <> [] ->
        prompts evs = [] /\ summary = "Error summarizing text.")
    /\ List.Forall (fun msg => JS.startsWith msg "Error handling" = false)
         (console_errors evs)
    /\ (forall messages r,
          In (messages, r) (prompts evs) ->
          exists usersMap t1,
            getUserMap env (List.map user chats) t = (Returned usersMap, t1)
            /\ messages
               = systemPrompt question
                   :: push_question question (snd (transcript_loop usersMap chats []))).
Proof.
  rewrite summarizeText_eq. unfold getUserMap.
  destruct (getUserMap_loop_lookups env (List.map user chats) new_Map t)
    as (ru & uevs & Hu & Hst & Hce & (Hpo & Hpr & Hfe) & Hr).
  rewrite Hu.
  assert (Hn : exists n, (n <= List.length chats)%nat
                 /\ lookups uevs = List.firstn n (List.map user chats)
                 /\ stages uevs = List.repeat 1%nat n).
  { exists (List.length (lookups uevs)). rewrite Hst.
    destruct ru as [m|e].
    - destruct Hr as [-> _]. rewrite List.length_map, <- (List.length_map user chats).
      rewrite List.firstn_all. auto.
    - destruct Hr as (before & u & after & Hmap & -> & _).
      rewrite <- (List.length_map user chats), Hmap.
      rewrite !List.length_app. simpl.
      split; [lia|]. split; [|reflexivity].
      replace (before ++ u :: after)%list with ((before ++ [u]) ++ after)%list
        by (rewrite <- List.app_assoc; reflexivity).
      rewrite List.firstn_app.
      replace (List.length before + 1 - List.length (before ++ [u]))%nat with 0%nat
        by (rewrite List.length_app; simpl; lia).
      rewrite List.firstn_all2 by (rewrite List.length_app; simpl; lia).
      simpl. rewrite List.app_nil_r. reflexivity. }
  destruct Hn as (n & Hle & Hlook & Hstages).
  destruct ru as [usersMap|e].
  - destruct Hr as [_ Hfailed]. cbv zeta.
    match goal with
    | |- context [answer_completion ?e ?t ?m ?ms ?q] =>
        destruct (answer_completion e t m ms q) as [[|content0 rest]|err]
    end;
      (eexists; eexists; split; [rewrite <- List.app_assoc; reflexivity|];
       rewrite !posts_app, !fetches_app, !prompts_app, !stages_app, !lookups_app,
         !failed_lookups_app, !console_errors_app,
         Hpo, Hfe, Hpr, Hce, Hfailed, Hstages, Hlook;
       split; [try discriminate; apply or_string_not_empty; discriminate|];
       split; [reflexivity|]; split; [reflexivity|];
       split; [exists n; simpl; rewrite ?List.app_nil_r; auto|];
       split; [simpl; lia|];
       split; [simpl; intros Hcontra; contradiction|];
       split; [simpl; repeat first [apply List.Forall_nil | apply List.Forall_cons; [reflexivity|]]|];
       simpl; intros messages r [[= <- _]|[]];
       exists usersMap, (t ++ uevs)%list; split; reflexivity).
  - destruct Hr as (before & u & after & _ & _ & Hfailed & _).
    eexists; eexists; split; [rewrite <- List.app_assoc; reflexivity|].
    rewrite !posts_app, !fetches_app, !prompts_app, !stages_app, !lookups_app,
      !failed_lookups_app, !console_errors_app,
      Hpo, Hfe, Hpr, Hce, Hfailed, Hstages, Hlook.
    split; [discriminate|]. split; [reflexivity|]. split; [reflexivity|].
    split; [exists n; simpl; rewrite ?List.app_nil_r; auto|].
    split; [simpl; lia|]. split; [simpl; auto|].
    split; [simpl; repeat first [apply List.Forall_nil | apply List.Forall_cons; [reflexivity|]]|].
    simpl. intros messages r [].
Qed.

(** Everything the later theorems need to know about one run of
    [handleSummarizeRequest]. *)
Lemma handleSummarizeRequest_run env channelId question threadTs limit t :
  exists chats evs,
    fst (fetchRecentMessages env channelId (Some limit) threadTs t) = Returned chats
    /\ handleSummarizeRequest env channelId question threadTs (Some limit) t
       = (Returned tt, (t ++ evs)%list)
    /\ fetches evs = [(channelId, if JS.truthy threadTs then threadTs else None, limit)]
    /\ match chats with
       | [] => posts evs = [] /\ prompts evs = [] /\ lookups evs = []
       | _ :: _ =>
           exists summary,
             summary <> EmptyString
             /\ posts evs = [(channelId, summary, threadTs)]
             /\ (failed_lookups evs <> [] ->
                 prompts evs = [] /\ summary = "Error summarizing text.")
       end
    /\ (exists n, (n <= List.length chats)%nat
          /\ lookups evs = List.firstn n (List.map user chats)
          /\ stages evs
             = (0%nat :: List.repeat 1%nat n
                  ++ List.repeat 2%nat (List.length (prompts evs))
                  ++ List.repeat 3%nat (List.length (posts evs)))%list)
    /\ (List.length (prompts evs) <= 1)%nat
    /\ List.Forall (fun msg => JS.startsWith msg "Error handling" = false)
         (console_errors evs)
    /\ (forall messages r,
          In (messages, r) (prompts evs) ->
          exists usersMap,
            messages
            = systemPrompt question
                :: push_question question (snd (transcript_loop usersMap chats []))).
Proof.
  rewrite handleSummarizeRequest_unfold, fetchRecentMessages_eq. cbv zeta.
  set (rf := conversation_answer env t channelId threadTs limit).
  set (chats := match rf with Returned (Some messages) => messages | _ => [] end).
  set (ftail := match rf with
                | Threw e => [console_error ("Error fetching messages: " ++ error_to_string e)]
                | Returned _ => []
                end).
  destruct (conversation_event_observed channelId threadTs limit rf)
    as (Hff & Hfs & Hfp & Hfc & Hfl & Hffl & Hfce).
  assert (Htail : fetches ftail = [] /\ stages ftail = [] /\ posts ftail = []
                  /\ prompts ftail = [] /\ lookups ftail = []
                  /\ failed_lookups ftail = []
                  /\ List.Forall (fun msg => JS.startsWith msg "Error handling" = false)
                       (console_errors ftail)).
  { subst ftail. destruct rf; repeat split; try reflexivity.
    - apply List.Forall_nil.
    - apply List.Forall_cons; [reflexivity|apply List.Forall_nil]. }
  destruct Htail as (Htf & Hts & Htp & Htc & Htl & Htfl & Htce).
  set (fevs := conversation_event channelId threadTs limit rf :: ftail) in *.
  assert (Hfevs : fetches fevs
                  = [(channelId, if JS.truthy threadTs then threadTs else None, limit)]
                  /\ stages fevs = [0%nat] /\ posts fevs = [] /\ prompts fevs = []
                  /\ lookups fevs = [] /\ failed_lookups fevs = []
                  /\ List.Forall (fun msg => JS.startsWith msg "Error handling" = false)
                       (console_errors fevs)).
  { change fevs with ([conversation_event channelId threadTs limit rf] ++ ftail)%list.
    rewrite fetches_app, stages_app, posts_app, prompts_app, lookups_app,
      failed_lookups_app, console_errors_app,
      Hff, Hfs, Hfp, Hfc, Hfl, Hffl, Hfce, Htf, Hts, Htp, Htc, Htl, Htfl.
    repeat split; try reflexivity. exact Htce. }
  destruct Hfevs as (Hf1 & Hf2 & Hf3 & Hf4 & Hf5 & Hf6 & Hf7).
  exists chats. cbn [fst].
  destruct chats as [|c cs] eqn:Hchats.
  - exists fevs. rewrite Hf1, Hf2, Hf3, Hf4, Hf5.
    split; [reflexivity|]. split; [reflexivity|]. split; [reflexivity|].
    split; [auto|]. split; [exists 0%nat; simpl; auto|].
    split; [simpl; lia|]. split; [exact Hf7|]. intros messages r [].
  - destruct (summarizeText_run env (c :: cs) question (t ++ fevs)%list)
      as (summary & sevs & Hsum & Hne & Hsp & Hsf & (n & Hle & Hsl & Hss) & Hsc & Hsfl
          & Hsce & Hsm).
    rewrite Hsum, postMessage_eq. cbv zeta.
    set (rp := answer_postMessage env ((t ++ fevs) ++ sevs)%list channelId summary threadTs).
    set (ptail := match rp with
                  | Threw e => [console_error ("Error posting message: " ++ error_to_string e)]
                  | Returned _ => []
                  end).
    assert (Hptail : fetches ptail = [] /\ stages ptail = [] /\ posts ptail = []
                     /\ prompts ptail = [] /\ lookups ptail = []
                     /\ failed_lookups ptail = []
                     /\ List.Forall (fun msg => JS.startsWith msg "Error handling" = false)
                          (console_errors ptail)).
    { subst ptail. destruct rp; repeat split; try reflexivity.
      - apply List.Forall_nil.
      - apply List.Forall_cons; [reflexivity|apply List.Forall_nil]. }
    destruct Hptail as (Hp1 & Hp2 & Hp3 & Hp4 & Hp5 & Hp6 & Hp7).
    set (pe := chat_postMessage channelId summary threadTs rp).
    assert (Hpe : fetches [pe] = [] /\ stages [pe] = [3%nat]
                  /\ posts [pe] = [(channelId, summary, threadTs)]
                  /\ prompts [pe] = [] /\ lookups [pe] = []
                  /\ failed_lookups [pe] = [] /\ console_errors [pe] = [])
      by (repeat split; reflexivity).
    destruct Hpe as (Hq1 & Hq2 & Hq3 & Hq4 & Hq5 & Hq6 & Hq7).
    exists (fevs ++ sevs ++ [pe] ++ ptail)%list.
    split; [reflexivity|].
    split; [rewrite <- !List.app_assoc; reflexivity|].
    rewrite !fetches_app, !stages_app, !posts_app, !prompts_app, !lookups_app,
      !failed_lookups_app, !console_errors_app,
      Hf1, Hf2, Hf3, Hf4, Hf5, Hf6, Hsp, Hsf, Hsl, Hss, Hp1, Hp2, Hp3, Hp4, Hp5, Hp6,
      Hq1, Hq2, Hq3, Hq4, Hq5, Hq6, Hq7.
    rewrite !List.app_nil_r, !List.app_nil_l.
    split; [reflexivity|].
    split; [exists summary; split; [exact Hne|]; split; [reflexivity|exact Hsfl]|].
    split; [exists n; split; [exact Hle|]; split; [reflexivity|];
            rewrite <- List.app_assoc; reflexivity|].
    split; [exact Hsc|].
    split; [apply List.Forall_app; split; [exact Hf7|];
            apply List.Forall_app; split; [exact Hsce|exact Hp7]|].
    intros messages r Hin. apply Hsm in Hin as (usersMap & t1 & _ & ->). eauto.
Qed.

Lemma lookups_In (t : trace) u r : In (users_info u r) t -> In u (lookups t).
Proof.
  intros Hin. unfold lookups. apply List.in_flat_map.
  eexists; split; [exact Hin|simpl; auto].
Qed.

Lemma failed_lookups_In (t : trace) u e :
  In (users_info u (Threw e)) t -> failed_lookups t <> [].
Proof.
  intros Hin Hnone.
  assert (Hu : In u (failed_lookups t)).
  { unfold failed_lookups. apply List.in_flat_map.
    eexists; split; [exact Hin|simpl; auto]. }
  rewrite Hnone in Hu. destruct Hu.
Qed.

(** X8.  When a [users.info] call throws during a run of
    [handleSummarizeRequest], the model is not called at all, and the run
    still returns normally and posts exactly once, the text
    ["Error summarizing text."]. *)
Theorem lookup_failure_posts_fallback env channelId question threadTs limit u e :
  In (users_info u (Threw e))
     (snd (handleSummarizeRequest env channelId question threadTs (Some limit) [])) ->
  fst (handleSummarizeRequest env channelId question threadTs (Some limit) []) = Returned tt
  /\ prompts (snd (handleSummarizeRequest env channelId question threadTs (Some limit) []))
     = []
  /\ posts (snd (handleSummarizeRequest env channelId question threadTs (Some limit) []))
     = [(channelId, "Error summarizing text.", threadTs)].
Proof.
  destruct (handleSummarizeRequest_run env channelId question threadTs limit [])
    as (chats & evs & _ & -> & _ & Hcases & _).
  cbn [fst snd List.app]. intros Hin.
  destruct chats as [|c cs].
  - destruct Hcases as (_ & _ & Hnone). apply lookups_In in Hin.
    rewrite Hnone in Hin. destruct Hin.
  - destruct Hcases as (summary & _ & Hposts & Hfailed).
    destruct (Hfailed (failed_lookups_In _ _ _ Hin)) as [Hprompts ->]. auto.
Qed.

(** X9.  A run of [handleSummarizeRequest] never throws.  It makes exactly
    one conversation call, for the thread when the event has one and for
    the channel otherwise, and calls the model at most once.  When the fetch
    gave messages it posts exactly once, also when the post itself throws
    (no retry), a text that is never empty, on the channel and thread of
    the request; otherwise it posts nothing. *)
Theorem handleSummarizeRequest_replies_once env channelId question threadTs limit :
  exists chats,
    fst (fetchRecentMessages env channelId (Some limit) threadTs []) = Returned chats
    /\ fst (handleSummarizeRequest env channelId question threadTs (Some limit) [])
       = Returned tt
    /\ fetches (snd (handleSummarizeRequest env channelId question threadTs (Some limit) []))
       = [(channelId, if JS.truthy threadTs then threadTs else None, limit)]
    /\ (List.length
          (prompts (snd (handleSummarizeRequest env channelId question threadTs
                           (Some limit) []))) <= 1)%nat
    /\ match chats with
       | [] =>
           posts (snd (handleSummarizeRequest env channelId question threadTs
                         (Some limit) [])) = []
       | _ :: _ =>
           exists summary,
             summary <> EmptyString
             /\ posts (snd (handleSummarizeRequest env channelId question threadTs
                              (Some limit) []))
                = [(channelId, summary, threadTs)]
       end.
Proof.
  destruct (handleSummarizeRequest_run env channelId question threadTs limit [])
    as (chats & evs & Hfetch & -> & Hfetches & Hcases & _ & Hprompts & _).
  exists chats. cbn [fst snd List.app].
  split; [exact Hfetch|]. split; [reflexivity|]. split; [exact Hfetches|].
  split; [exact Hprompts|].
  destruct chats as [|c cs].
  - apply Hcases.
  - destruct Hcases as (summary & Hne & Hposts & _). eauto.
Qed.

(** [summarizeText], call by call: either every author is looked up, in
    the order of the messages and one lookup per message, and the model is
    called once; or the lookups stop at the first one that throws and the
    model is not called. *)
Lemma summarizeText_calls env chats question t :
  exists summary evs,
    summarizeText env chats question t = (Returned summary, (t ++ evs)%list)
    /\ posts evs = [] /\ fetches evs = []
    /\ ((failed_lookups evs = []
         /\ lookups evs = List.map user chats
         /\ stages evs = (List.repeat 1%nat (List.length chats) ++ [2%nat])%list)
        \/ (exists before u after,
              List.map user chats = (before ++ u :: after)%list
              /\ lookups evs = (before ++ [u])%list
              /\ failed_lookups evs = [u]
              /\ stages evs = List.repeat 1%nat (List.length before + 1))).
Proof.
  rewrite summarizeText_eq. unfold getUserMap.
  destruct (getUserMap_loop_lookups env (List.map user chats) new_Map t)
    as (ru & uevs & Hu & Hst & Hce & (Hpo & Hpr & Hfe) & Hr).
  rewrite Hu. destruct ru as [usersMap|e].
  - destruct Hr as [Hlook Hfailed]. cbv zeta.
    rewrite Hlook, List.length_map in Hst.
    match goal with
    | |- context [answer_completion ?e ?t ?m ?ms ?q] =>
        destruct (answer_completion e t m ms q) as [[|content0 rest]|err]
    end;
      (eexists; eexists; split; [rewrite <- List.app_assoc; reflexivity|];
       rewrite !posts_app, !fetches_app, !stages_app, !lookups_app, !failed_lookups_app,
         Hpo, Hfe, Hst, Hlook, Hfailed;
       split; [reflexivity|]; split; [reflexivity|];
       left; simpl; rewrite ?List.app_nil_r; auto).
  - destruct Hr as (before & u & after & Hmap & Hlook & Hfailed & _).
    rewrite Hlook, List.length_app in Hst. cbn [List.length] in Hst.
    eexists; eexists; split; [rewrite <- List.app_assoc; reflexivity|].
    rewrite !posts_app, !fetches_app, !stages_app, !lookups_app, !failed_lookups_app,
      Hpo, Hfe, Hst, Hlook, Hfailed.
    split; [reflexivity|]. split; [reflexivity|].
    right. exists before, u, after. simpl. rewrite ?List.app_nil_r. auto.
Qed.

(** X10.  The calls of one run of [handleSummarizeRequest] come in the order
    of the stages: the fetch, then the user lookups, then the model, then
    the reply.  When the fetch gave no message there is no other call.
    Otherwise, either no lookup throws, and then there is exactly one lookup
    per fetched message (skipped messages included), for the authors in the
    order of the messages, followed by one model call and one reply; or the
    lookups are made in that order up to and including the first one that
    throws, and are followed by the reply alone. *)
Theorem pipeline_stage_order env channelId question threadTs limit :
  exists chats,
    fst (fetchRecentMessages env channelId (Some limit) threadTs []) = Returned chats
    /\ match chats with
       | [] =>
           lookups (snd (handleSummarizeRequest env channelId question threadTs
                           (Some limit) [])) = []
           /\ stages (snd (handleSummarizeRequest env channelId question threadTs
                             (Some limit) [])) = [0%nat]
       | _ :: _ =>
           (failed_lookups (snd (handleSummarizeRequest env channelId question threadTs
                                   (Some limit) [])) = []
            /\ lookups (snd (handleSummarizeRequest env channelId question threadTs
                               (Some limit) []))
               = List.map user chats
            /\ stages (snd (handleSummarizeRequest env channelId question threadTs
                              (Some limit) []))
               = (0%nat :: List.repeat 1%nat (List.length chats) ++ [2%nat; 3%nat])%list)
           \/ (exists before u after,
                 List.map user chats = (before ++ u :: after)%list
                 /\ lookups (snd (handleSummarizeRequest env channelId question threadTs
                                    (Some limit) []))
                    = (before ++ [u])%list
                 /\ failed_lookups (snd (handleSummarizeRequest env channelId question
                                           threadTs (Some limit) []))
                    = [u]
                 /\ stages (snd (handleSummarizeRequest env channelId question threadTs
                                   (Some limit) []))
                    = (0%nat :: List.repeat 1%nat (List.length before + 1) ++ [3%nat])%list)
       end.
Proof.
  rewrite handleSummarizeRequest_unfold, fetchRecentMessages_eq. cbv zeta.
  set (rf := conversation_answer env [] channelId threadTs limit).
  set (chats := match rf with Returned (Some messages) => messages | _ => [] end).
  set (ftail := match rf with
                | Threw e => [console_error ("Error fetching messages: " ++ error_to_string e)]
                | Returned _ => []
                end).
  destruct (conversation_event_observed channelId threadTs limit rf)
    as (_ & Hfs & _ & _ & Hfl & Hffl & _).
  assert (Htail : stages ftail = [] /\ lookups ftail = [] /\ failed_lookups ftail = [])
    by (subst ftail; destruct rf; repeat split; reflexivity).
  destruct Htail as (Hts & Htl & Htfl).
  set (fevs := conversation_event channelId threadTs limit rf :: ftail) in *.
  assert (Hfevs : stages fevs = [0%nat] /\ lookups fevs = [] /\ failed_lookups fevs = []).
  { change fevs with ([conversation_event channelId threadTs limit rf] ++ ftail)%list.
    rewrite stages_app, lookups_app, failed_lookups_app, Hfs, Hfl, Hffl, Hts, Htl, Htfl.
    repeat split; reflexivity. }
  destruct Hfevs as (Hf1 & Hf2 & Hf3).
  exists chats. cbn [fst List.app]. split; [reflexivity|].
  destruct chats as [|c cs] eqn:Hchats.
  - cbn [snd]. auto.
  - destruct (summarizeText_calls env (c :: cs) question fevs)
      as (summary & sevs & Hsum & _ & _ & Hcalls).
    rewrite Hsum, postMessage_eq. cbv zeta.
    set (rp := answer_postMessage env (fevs ++ sevs)%list channelId summary threadTs).
    set (ptail := match rp with
                  | Threw e => [console_error ("Error posting message: " ++ error_to_string e)]
                  | Returned _ => []
                  end).
    assert (Hptail : stages ptail = [] /\ lookups ptail = [] /\ failed_lookups ptail = [])
      by (subst ptail; destruct rp; repeat split; reflexivity).
    destruct Hptail as (Hp1 & Hp2 & Hp3).
    set (pe := chat_postMessage channelId summary threadTs rp).
    cbn [snd].
    change ((fevs ++ sevs) ++ pe :: ptail)%list
      with ((fevs ++ sevs) ++ [pe] ++ ptail)%list.
    rewrite !stages_app, !lookups_app, !failed_lookups_app,
      Hf1, Hf2, Hf3, Hp1, Hp2, Hp3.
    change (stages [pe]) with [3%nat]. change (lookups [pe]) with (@nil string).
    change (failed_lookups [pe]) with (@nil string).
    rewrite !List.app_nil_r, !List.app_nil_l.
    destruct Hcalls as [(Hfailed & Hlook & Hst)|(before & u & after & Hmap & Hlook & Hfailed & Hst)].
    + left. rewrite Hfailed, Hlook, Hst.
      split; [reflexivity|]. split; [reflexivity|].
      cbn [List.app]. f_equal. rewrite <- List.app_assoc. reflexivity.
    + right. exists before, u, after. rewrite Hfailed, Hlook, Hst.
      repeat split; reflexivity || exact Hmap.
Qed.

(** X11.  The two listeners never throw, for any event and any behaviour of
    the outside: their [catch] blocks are never entered (no
    ["Error handling ..."] line is logged), and they post at most once. *)
Theorem listeners_never_throw env event :
  (fst (app_mention env event []) = Returned tt
   /\ List.Forall (fun msg => JS.startsWith msg "Error handling" = false)
        (console_errors (snd (app_mention env event [])))
   /\ (List.length (posts (snd (app_mention env event []))) <= 1)%nat)
  /\ (fst (app_message env event []) = Returned tt
      /\ List.Forall (fun msg => JS.startsWith msg "Error handling" = false)
           (console_errors (snd (app_message env event [])))
      /\ (List.length (posts (snd (app_message env event []))) <= 1)%nat).
Proof.
  assert (Hrun : forall question limit t,
    console_errors t = [] -> posts t = [] ->
    fst (handleSummarizeRequest env (channel event) question (thread_ts event)
           (Some limit) t) = Returned tt
    /\ List.Forall (fun msg => JS.startsWith msg "Error handling" = false)
         (console_errors
            (snd (handleSummarizeRequest env (channel event) question (thread_ts event)
                    (Some limit) t)))
    /\ (List.length
          (posts (snd (handleSummarizeRequest env (channel event) question
                         (thread_ts event) (Some limit) t))) <= 1)%nat).
  { intros question limit t Hce Hpo.
    destruct (handleSummarizeRequest_run env (channel event) question (thread_ts event)
                limit t)
      as (chats & evs & _ & -> & _ & Hcases & _ & _ & Herrors & _).
    cbn [fst snd]. rewrite console_errors_app, posts_app, Hce, Hpo.
    split; [reflexivity|]. split; [exact Herrors|].
    destruct chats as [|c cs].
    - destruct Hcases as (-> & _). simpl. lia.
    - destruct Hcases as (summary & _ & -> & _). simpl. lia. }
  assert (Hpost : forall txt t,
    console_errors t = [] -> posts t = [] ->
    fst (postMessage env (channel event) txt (thread_ts event) t) = Returned tt
    /\ List.Forall (fun msg => JS.startsWith msg "Error handling" = false)
         (console_errors (snd (postMessage env (channel event) txt (thread_ts event) t)))
    /\ (List.length
          (posts (snd (postMessage env (channel event) txt (thread_ts event) t))) <= 1)%nat).
  { intros txt t Hce Hpo. rewrite postMessage_eq. cbv zeta. cbn [fst snd].
    rewrite console_errors_app, posts_app, Hce, Hpo.
    destruct (answer_postMessage env t (channel event) txt (thread_ts event));
      (split; [reflexivity|]; split; [|simpl; lia]).
    - apply List.Forall_nil.
    - apply List.Forall_cons; [reflexivity|apply List.Forall_nil]. }
  split.
  - unfold app_mention, try_catch, bind, say. simpl List.app.
    set (prompt := JS.join (JS.slice1 (JS.split (text event) " ")) " ").
    set (t0 := [console_log [LogString (Some "Event: "); LogString (Some (text event))];
                console_log [LogString (Some "Prompt: "); LogString (Some prompt)]]).
    destruct (String.eqb (JS.trim prompt) "--help").
    { destruct (Hpost helpText t0 eq_refl eq_refl) as (Hr & He & Hp).
      destruct (postMessage env (channel event) helpText (thread_ts event) t0)
        as [[[]|e] t1]; [|discriminate Hr]. auto. }
    destruct (String.eqb (JS.trim prompt) "--version").
    { destruct (Hpost "v1.0.0" t0 eq_refl eq_refl) as (Hr & He & Hp).
      destruct (postMessage env (channel event) "v1.0.0" (thread_ts event) t0)
        as [[[]|e] t1]; [|discriminate Hr]. auto. }
    destruct (mention_request_spec prompt) as (question & limit & -> & _).
    destruct (Hrun question limit t0 eq_refl eq_refl) as (Hr & He & Hp).
    destruct (handleSummarizeRequest env (channel event) question (thread_ts event)
                (Some limit) t0) as [[[]|e] t1]; [|discriminate Hr]. auto.
  - unfold app_message.
    destruct (RegExp.exec summarize_pattern 2 (text event)) as [matches|].
    + unfold message_request, try_catch, bind, say. simpl List.app.
      match goal with
      | |- context [handleSummarizeRequest env _ ?q _ (Some ?l) ?t0] =>
          destruct (Hrun q l t0 eq_refl eq_refl) as (Hr & He & Hp);
          destruct (handleSummarizeRequest env (channel event) q (thread_ts event)
                      (Some l) t0) as [[[]|e] t1]; [|discriminate Hr]
      end. auto.
    + unfold ret. simpl. split; [reflexivity|]. split; [apply List.Forall_nil|lia].
Qed.

(** ** The prompt *)

(** X12.  Whatever the user map, every entry that the loop of
    [summarizeText] pushes has the role ["user"], comes from a message that
    none of the three rules skips, and so is never an entry of the speaker
    ["summarizer"] nor of a message that starts with the mention token of
    the bot; its content is the speaker, a colon, a space and the rewritten
    text. *)
Theorem transcript_has_no_bot_entries usersMap chats entry :
  In entry (snd (transcript_loop usersMap chats [])) ->
  Prompt.role entry = "user"
  /\ Prompt.user entry <> Some "summarizer"
  /\ exists chat,
       In chat chats
       /\ skipped usersMap chat = false
       /\ JS.startsWith (text chat) "<@U07AF4DJWRH>" = false
       /\ Prompt.user entry = Some (JS.or_string (Map_get (user chat) usersMap) "Unknown")
       /\ Prompt.content entry
          = JS.or_string (Map_get (user chat) usersMap) "Unknown"
              ++ ": " ++ rewrite_mentions usersMap (text chat).
Proof.
  rewrite transcript_loop_entries, List.app_nil_l.
  intros Hin. apply List.in_map_iff in Hin as (chat & <- & Hkept).
  apply List.filter_In in Hkept as [Hchat Hkept].
  apply Bool.negb_true_iff in Hkept.
  pose proof Hkept as Hrules. unfold skipped in Hrules.
  apply Bool.orb_false_iff in Hrules as [Hrules Hself].
  apply Bool.orb_false_iff in Hrules as [_ Hbot].
  split; [reflexivity|]. split.
  - simpl. intros [= Heq]. rewrite Heq in Hbot. discriminate.
  - exists chat. auto 10.
Qed.

(** X13.  Every [messages] array that a run of [handleSummarizeRequest] hands
    to the model is, for the messages that the fetch of the run returned and
    the user map that [getUserMap] returned for their authors: the system
    prompt; then, in the order of the fetch, one entry for each fetched
    message that is not skipped; then the question entry when the question
    is a non-empty text.  So the system prompt is first, every other entry
    has the role ["user"], and the array has at most two entries more than
    there are fetched messages. *)
Theorem prompt_shape env channelId question threadTs limit messages r :
  In (messages, r)
     (prompts (snd (handleSummarizeRequest env channelId question threadTs (Some limit) []))) ->
  exists chats t1 usersMap t2,
    fetchRecentMessages env channelId (Some limit) threadTs [] = (Returned chats, t1)
    /\ getUserMap env (List.map user chats) t1 = (Returned usersMap, t2)
    /\ messages
       = systemPrompt question
           :: push_question question
                (List.map (pushed_entry usersMap)
                   (List.filter (fun chat => negb (skipped usersMap chat)) chats))
    /\ List.Forall (fun entry => Prompt.role entry = "user") (List.tl messages)
    /\ (List.length messages <= List.length chats + 2)%nat.
Proof.
  rewrite handleSummarizeRequest_unfold.
  destruct (fetchRecentMessages_spec env channelId limit threadTs [])
    as (chats & fevs & Hfetch & _ & Hfc & _).
  rewrite Hfetch. simpl List.app.
  destruct chats as [|c cs].
  { simpl. rewrite Hfc. intros []. }
  destruct (summarizeText_spec env (c :: cs) question fevs)
    as (summary & sevs & Hsum & _ & _ & Hsc).
  rewrite Hsum.
  destruct (postMessage_spec env channelId summary threadTs (fevs ++ sevs)%list)
    as (pevs & Hpost & _ & Hpc & _).
  rewrite Hpost. cbn [snd].
  rewrite !prompts_app, Hfc, Hpc, List.app_nil_r. simpl List.app.
  intros Hin.
  destruct Hsc as [Hnone|(usersMap & tu & r0 & Hmap & Hone & _)];
    [rewrite Hnone in Hin; destruct Hin|].
  rewrite transcript_loop_entries, List.app_nil_l in Hone.
  set (kept := List.filter (fun chat => negb (skipped usersMap chat)) (c :: cs)) in *.
  rewrite Hone in Hin. destruct Hin as [[= <- _]|[]].
  exists (c :: cs), fevs, usersMap, tu.
  split; [reflexivity|]. split; [exact Hmap|].
  fold kept. split; [reflexivity|].
  cbn [List.tl].
  assert (Hlen : (List.length kept <= List.length (c :: cs))%nat)
    by apply List.filter_length_le.
  assert (Hroles : List.Forall (fun entry => Prompt.role entry = "user")
                     (List.map (pushed_entry usersMap) kept)).
  { apply List.Forall_forall. intros entry Hentry.
    apply List.in_map_iff in Hentry as (chat & <- & _). reflexivity. }
  destruct question as [[|c0 s0]|]; cbn [push_question].
  - split; [exact Hroles|]. cbn [List.length] in *. rewrite List.length_map. lia.
  - split.
    + apply List.Forall_app. split; [exact Hroles|].
      apply List.Forall_cons; [reflexivity|apply List.Forall_nil].
    + cbn [List.length] in *. rewrite List.length_app, List.length_map. simpl. lia.
  - split; [exact Hroles|]. cbn [List.length] in *. rewrite List.length_map. lia.
Qed.

(** X3.  The message listener runs exactly for the texts that contain
    [!summarize]: without the command word it does nothing at all (no call,
    no log), and with it the run makes exactly one conversation call,
    whatever follows the command word. *)
Theorem message_listener_runs_iff_command_present env message :
  (RegExp.exec summarize_pattern 2 (text message) = None
   <-> JS.includes (text message) "!summarize" = false)
  /\ (JS.includes (text message) "!summarize" = false ->
      app_message env message [] = (Returned tt, []))
  /\ (JS.includes (text message) "!summarize" = true ->
      List.length (fetches (snd (app_message env message []))) = 1%nat).
Proof.
  split; [apply exec_none_iff_no_command|]. split.
  - intros Hnone. apply exec_none_iff_no_command in Hnone.
    unfold app_message. rewrite Hnone. reflexivity.
  - intros Hsome. unfold app_message.
    destruct (RegExp.exec summarize_pattern 2 (text message)) as [matches|] eqn:Hexec.
    + unfold message_request, try_catch, bind, say. simpl List.app.
      match goal with
      | |- context [handleSummarizeRequest env ?c ?q ?ts (Some ?l) ?t] =>
          destruct (handleSummarizeRequest_run env c q ts l t)
            as (chats & evs & _ & -> & Hf & _)
      end.
      cbn [snd]. rewrite fetches_app, Hf. reflexivity.
    + apply exec_none_iff_no_command in Hexec. congruence.
Qed.

(** ** The further theorems at work on the sample runs *)

Lemma message_listener_runs_iff_command_present_witness :
  app_message sample_env chat_message [] = (Returned tt, [])
  /\ List.length (fetches (snd (app_message sample_env digits_message []))) = 1%nat
  /\ RegExp.exec summarize_pattern 2 (text chat_message) = None.
Proof.
  destruct (message_listener_runs_iff_command_present sample_env chat_message)
    as (Hiff & Hsilent & _).
  destruct (message_listener_runs_iff_command_present sample_env digits_message)
    as (_ & _ & Hruns).
  split; [apply Hsilent; reflexivity|].
  split; [apply Hruns; reflexivity|].
  apply Hiff. reflexivity.
Defined.

Lemma captured_question_is_quoted_witness :
  exists body,
    quoted_question = String JS.dquote (body ++ String JS.dquote EmptyString)
    /\ JS.every (fun c => negb (JS.is_line_terminator c)) body = true
    /\ JS.truthy (Some quoted_question) = true.
Proof.
  apply (captured_question_is_quoted question_trigger
           [Some question_trigger; Some quoted_question; Some "5"] quoted_question).
  - vm_compute. reflexivity.
  - reflexivity.
Defined.

Lemma getUserMap_domain_and_names_witness :
  (forall u, In u (List.map user sample_chats)
             <-> exists n, Map_get u sample_usersMap = Some n)
  /\ (forall u n, Map_get u sample_usersMap = Some n -> n <> EmptyString)
  /\ (forall u, In u (List.map user sample_chats) ->
        Map_get u sample_usersMap
        = Some (JS.or_string (Map_get u sample_usersMap) "Unknown")).
Proof.
  apply (getUserMap_domain_and_names sample_env (List.map user sample_chats) []
           sample_usersMap sample_lookups).
  reflexivity.
Defined.

Lemma lookup_failure_posts_fallback_witness :
  fst (handleSummarizeRequest stranger_env "C1" None None (Some (JS.Int 10)) []) = Returned tt
  /\ prompts (snd (handleSummarizeRequest stranger_env "C1" None None (Some (JS.Int 10)) [])) = []
  /\ posts (snd (handleSummarizeRequest stranger_env "C1" None None (Some (JS.Int 10)) []))
     = [("C1", "Error summarizing text.", None)].
Proof.
  apply (lookup_failure_posts_fallback stranger_env "C1" None None (JS.Int 10)
           "U404" (ApiError "user_not_found")).
  vm_compute. right. left. reflexivity.
Defined.

Lemma transcript_has_no_bot_entries_witness :
  Prompt.role {| Prompt.role := "user"; Prompt.content := "bob: hello";
                 Prompt.user := Some "bob" |} = "user"
  /\ Some "bob" <> Some "summarizer"
  /\ exists chat,
       In chat sample_chats
       /\ skipped sample_usersMap chat = false
       /\ JS.startsWith (text chat) "<@U07AF4DJWRH>" = false
       /\ Some "bob" = Some (JS.or_string (Map_get (user chat) sample_usersMap) "Unknown")
       /\ "bob: hello"
          = JS.or_string (Map_get (user chat) sample_usersMap) "Unknown"
              ++ ": " ++ rewrite_mentions sample_usersMap (text chat).
Proof.
  apply (transcript_has_no_bot_entries sample_usersMap sample_chats
           {| Prompt.role := "user"; Prompt.content := "bob: hello";
              Prompt.user := Some "bob" |}).
  vm_compute. right. left. reflexivity.
Defined.

Lemma prompt_shape_witness :
  exists chats t1 usersMap t2,
    fetchRecentMessages sample_env "C1" (Some (JS.Int 10)) None [] = (Returned chats, t1)
    /\ getUserMap sample_env (List.map user chats) t1 = (Returned usersMap, t2)
    /\ systemPrompt None :: snd (transcript_loop sample_usersMap sample_chats [])
       = systemPrompt None
           :: push_question None
                (List.map (pushed_entry usersMap)
                   (List.filter (fun chat => negb (skipped usersMap chat)) chats))
    /\ List.Forall (fun entry => Prompt.role entry = "user")
         (List.tl (systemPrompt None :: snd (transcript_loop sample_usersMap sample_chats [])))
    /\ (List.length (systemPrompt None :: snd (transcript_loop sample_usersMap sample_chats []))
        <= List.length chats + 2)%nat.
Proof.
  apply (prompt_shape sample_env "C1" None None (JS.Int 10)
           (systemPrompt None :: snd (transcript_loop sample_usersMap sample_chats []))
           (Returned [Some "A summary."])).
  vm_compute. left. reflexivity.
Defined.

(** ** Mentions that are not recognised as a request for help *)


(** ** [parseInt] beyond the integers that a double holds *)

Example parseInt_rounds_to_double :
  JS.parseInt "9007199254740993" = JS.Int 9007199254740992
  /\ JS.parseInt "9007199254740995" = JS.Int 9007199254740996
  /\ JS.parseInt (nines 400) = JS.Infinity false
  /\ JS.parseInt ("-" ++ nines 400) = JS.Infinity true.
Proof. vm_compute. repeat split; reflexivity. Qed.

Example infinite_limit_reaches_fetch :
  fetches
    (snd (app_message sample_env
            {| text := "!summarize " ++ nines 400; user := "U1"; channel := "C1";
               thread_ts := None |} []))
  = [("C1", None, JS.Infinity false)].
Proof. vm_compute. reflexivity. Qed.
